(** * Magi astrology calculator: positions and aspects

    A shallow embedding of [astro.py]: [get_pyephem_body],
    [calculate_positions] and [calculate_aspects], with the constants
    [PLANETS], [ORBS] and [ASPECTS] they read.

    Conventions of the embedding.
    - A Python [float] holding a number of degrees is a rational of [Q],
      so the arithmetic is exact and equality of degree values is [==].
    - A Python [dict] is an association list in insertion order, which is
      the order [keys()] and [items()] iterate in.
    - A Python call either returns or raises: [result].
    - The two ephemeris libraries are outside the program.  What they
      return is a parameter, the record [Ephemeris].  What the program
      itself asks of their objects is modelled: the module-level
      [observer] is an [ephem.Observer], which has no method [at]. *)

From Stdlib Require Import QArith Qabs Qminmax Lqa ZArith Lia.
From Stdlib Require Import Bool List String Ascii.
From Stdlib Require Import Sorting.Sorted Sorting.Permutation.
From Stdlib Require Import Structures.OrderedTypeEx.
Import ListNotations.

Local Open Scope string_scope.
Local Open Scope Q_scope.

(** ** Python values and control *)

Module Py.

(** The exceptions the embedded code can raise. *)
Inductive exn : Type :=
| UnboundLocalError (var : string)
| KeyError (key : string)
| AttributeError (attr : string).

Inductive result (A : Type) : Type :=
| Returned (a : A)
| Raised (e : exn).
Arguments Returned {A} a.
Arguments Raised {A} e.

Definition bind {A B : Type} (r : result A) (k : A -> result B) : result B :=
  match r with
  | Returned a => k a
  | Raised e => Raised e
  end.

(** [for x in xs: body], threading the local variables [s]. *)
Fixpoint for_each {A S : Type} (xs : list A) (body : A -> S -> result S)
         (s : S) : result S :=
  match xs with
  | [] => Returned s
  | x :: xs' => bind (body x s) (for_each xs' body)
  end.

(** Reading a local variable that may not have been assigned yet. *)
Definition read_local {A : Type} (var : string) (v : option A) : result A :=
  match v with
  | Some a => Returned a
  | None => Raised (UnboundLocalError var)
  end.

(** Comparisons of floats. *)
Definition lt (x y : Q) : bool := negb (Qle_bool y x).
Definition le (x y : Q) : bool := Qle_bool x y.

(** [abs(x)] and [min(x, y)]: [min] keeps its first argument unless the
    second is strictly smaller. *)
Definition abs (x : Q) : Q := if lt x 0 then - x else x.
Definition min (x y : Q) : Q := if lt y x then y else x.

(** Dictionaries with string keys. *)
Definition dict (V : Type) : Type := list (string * V).

Definition keys {V : Type} (d : dict V) : list string := map fst d.

Fixpoint get {V : Type} (d : dict V) (k : string) : option V :=
  match d with
  | [] => None
  | (k', v) :: d' => if String.eqb k' k then Some v else get d' k
  end.

(** [d[k]]. *)
Definition getitem {V : Type} (d : dict V) (k : string) : result V :=
  match get d k with
  | Some v => Returned v
  | None => Raised (KeyError k)
  end.

(** [d[k] = v]: an existing key keeps its place, a new one goes last. *)
Fixpoint setitem {V : Type} (d : dict V) (k : string) (v : V) : dict V :=
  match d with
  | [] => [(k, v)]
  | (k', v') :: d' =>
      if String.eqb k' k then (k', v) :: d' else (k', v') :: setitem d' k v
  end.

(** [enumerate(xs)]. *)
Fixpoint enumerate_from {A : Type} (i : nat) (xs : list A) : list (nat * A) :=
  match xs with
  | [] => []
  | x :: xs' => (i, x) :: enumerate_from (S i) xs'
  end.
Definition enumerate {A : Type} (xs : list A) : list (nat * A) :=
  enumerate_from 0 xs.

(** [x in xs] for a list of strings. *)
Definition contains (xs : list string) (x : string) : bool :=
  existsb (String.eqb x) xs.

End Py.

Import Py.

Notation "'do' x <- r ; k" := (Py.bind r (fun x => k))
  (at level 10, x name, r at level 100, k at level 200).

(** ** The ephemeris sources *)

(** The objects [get_pyephem_body] builds. *)
Inductive pyephem_body : Type :=
| EphemSun | EphemMoon | EphemMercury | EphemVenus | EphemMars
| EphemJupiter | EphemSaturn | EphemUranus | EphemNeptune | EphemPluto.

(** An [ephem.Observer]: latitude, longitude and date (seconds, UTC). *)
Record Observer : Type := {
  lat : Q;
  lon : Q;
  date : Z
}.

(** [hlong_deg body obs] is [body.hlong * 180 / ephem.pi] after
    [body.compute(obs)].  [chiron_skyfield] is [None] when loading the
    skyfield ephemeris failed at start-up ([eph] and [chiron_skyfield]
    are then [None] in the source); otherwise it holds what the loaded
    skyfield body would give as [apparent().lon.degrees] for an
    observer, which the resolver never gets to ask (see [resolve_body]). *)
Record Ephemeris : Type := {
  hlong_deg : pyephem_body -> Observer -> Q;
  chiron_skyfield : option (Observer -> Q)
}.

(** The fields of [person_data] the resolver reads.  [dt_local] is the
    parsed date and time in seconds; [timezone_offset] is in hours.  The
    key ['longitude'] is [longitude_of_birth] here, apart from the
    ['longitude'] of a position. *)
Record person_data : Type := {
  name : string;
  dt_local : Z;
  latitude : Q;
  longitude_of_birth : Q;
  timezone_offset : Z
}.

(** ** Constants *)

Definition PLANETS : list string :=
  ["Sun"; "Moon"; "Mercury"; "Venus"; "Mars"; "Jupiter"; "Saturn";
   "Uranus"; "Neptune"; "Pluto"; "Chiron"].

(** ** Position resolver *)

Definition get_pyephem_body (planet_name : string) : option pyephem_body :=
  if String.eqb planet_name "Sun" then Some EphemSun
  else if String.eqb planet_name "Moon" then Some EphemMoon
  else if String.eqb planet_name "Mercury" then Some EphemMercury
  else if String.eqb planet_name "Venus" then Some EphemVenus
  else if String.eqb planet_name "Mars" then Some EphemMars
  else if String.eqb planet_name "Jupiter" then Some EphemJupiter
  else if String.eqb planet_name "Saturn" then Some EphemSaturn
  else if String.eqb planet_name "Uranus" then Some EphemUranus
  else if String.eqb planet_name "Neptune" then Some EphemNeptune
  else if String.eqb planet_name "Pluto" then Some EphemPluto
  else None.

(** One entry of the map [calculate_positions] returns. *)
Record Position : Type := {
  longitude : Q;
  is_retrograde : bool;
  Rx_symbol : string
}.

(** The one-hour longitude difference after the 0/360 correction:
<<
    diff = future_long - current_long
    if diff < -180: diff += 360
    elif diff > 180: diff -= 360
>> *)
Definition corrected_diff (current_long future_long : Q) : Q :=
  let diff := future_long - current_long in
  if Py.lt diff (-180) then diff + 360
  else if Py.lt 180 diff then diff - 360
  else diff.

(** The local variables of [calculate_positions] that live across loop
    iterations: the map being built and [is_retrograde], which is unbound
    until a pyephem body has been handled.  ([long_deg] is assigned anew
    on every path that reaches the store.) *)
Record locals : Type := {
  positions : Py.dict Position;
  is_retrograde_var : option bool
}.

Section Resolver.

Variable eph : Ephemeris.
Variable person : person_data.

Definition dt_utc : Z := (dt_local person - 3600 * timezone_offset person)%Z.

(** The module-level [observer] after its location and date are set. *)
Definition observer : Observer :=
  {| lat := latitude person; lon := longitude_of_birth person; date := dt_utc |}.

(** [observer_future]: same place, one hour later. *)
Definition observer_future : Observer :=
  {| lat := latitude person; lon := longitude_of_birth person;
     date := (dt_utc + 3600)%Z |}.

(** The assignment [positions[p_name] = {...}] that ends an iteration.
    The two conditional expressions read [is_retrograde] only when
    their guard lets them. *)
Definition store (p_name : string) (long_deg : Q) (st : locals)
  : Py.result locals :=
  do retro <-
     (if negb (String.eqb p_name "Chiron")
         && negb (Py.contains ["Sun"; "Moon"] p_name)
      then Py.read_local "is_retrograde" (is_retrograde_var st)
      else Returned false);
  do marked <-
     (if negb (Py.contains ["Sun"; "Moon"] p_name)
      then Py.read_local "is_retrograde" (is_retrograde_var st)
      else Returned false);
  Returned
    {| positions :=
         Py.setitem (positions st) p_name
           {| longitude := long_deg;
              is_retrograde := retro;
              Rx_symbol := if marked then "Rx" else "" |};
       is_retrograde_var := is_retrograde_var st |}.

(** The body of [for p_name in PLANETS].  With the skyfield ephemeris
    loaded, the Chiron branch evaluates [observer.at(t)] on the
    module-level [observer = ephem.Observer()]; that class has no
    attribute [at], so the expression raises AttributeError before the
    skyfield body is observed and before anything is stored. *)
Definition resolve_body (p_name : string) (st : locals) : Py.result locals :=
  if String.eqb p_name "Chiron" then
    match chiron_skyfield eph with
    | Some _ => Raised (AttributeError "at")
    | None => store p_name 0 st
    end
  else
    match get_pyephem_body p_name with
    | Some body =>
        let long_deg := hlong_deg eph body observer in
        let current_long := hlong_deg eph body observer in
        let future_long := hlong_deg eph body observer_future in
        let diff := corrected_diff current_long future_long in
        store p_name long_deg
          {| positions := positions st;
             is_retrograde_var := Some (Py.lt diff 0) |}
    | None => Returned st
    end.

(** [calculate_positions] with the roster it loops over made explicit. *)
Definition calculate_positions_over (roster : list string)
  : Py.result (Py.dict Position) :=
  do st <- Py.for_each roster resolve_body
             {| positions := []; is_retrograde_var := None |};
  Returned (positions st).

Definition calculate_positions : Py.result (Py.dict Position) :=
  calculate_positions_over PLANETS.

End Resolver.


(** ** Aspect tables *)

(** Magi astrology aspect orbs, in degrees. *)
Definition ORBS : Py.dict Q :=
  [("Major_Natal", 3.0); ("Minor_Natal", 1.0);
   ("Major_Synastry", 1.0); ("Minor_Synastry", 0.5)].

(** A value of [ASPECTS]: the keys ['name'], ['type'] and ['symbol']. *)
Record aspect_data : Type := {
  ad_name : string;
  ad_type : string;
  ad_symbol : string
}.

(** [ASPECTS.items()], in the order the literal lists them. *)
Definition ASPECTS : list (Z * aspect_data) :=
  [(0%Z, {| ad_name := "Conjunction"; ad_type := "Hard"; ad_symbol := "☌" |});
   (30%Z, {| ad_name := "Semi-Sextile"; ad_type := "Soft"; ad_symbol := "⚹" |});
   (60%Z, {| ad_name := "Sextile"; ad_type := "Soft"; ad_symbol := "⚹" |});
   (90%Z, {| ad_name := "Square"; ad_type := "Hard"; ad_symbol := "□" |});
   (120%Z, {| ad_name := "Trine"; ad_type := "Soft"; ad_symbol := "△" |});
   (150%Z, {| ad_name := "Quincunx"; ad_type := "Soft"; ad_symbol := "⚻" |});
   (180%Z, {| ad_name := "Opposition"; ad_type := "Hard"; ad_symbol := "☍" |})].

(** One element of the list [calculate_aspects] returns. *)
Record aspect : Type := {
  angle : Z;
  aspect_name : string;
  aspect_type : string;
  symbol : string;
  orb : Q;
  actual_angle_diff : Q;
  chart1_planet : string;
  chart2_planet : string;
  aspect_dimension : string
}.

(** ** Sorting as [list.sort(key=...)] does

    [list.sort] is stable and compares keys with [<] only.  The stable
    insertion sort below puts an element after exactly those elements of
    the sorted rest whose key is strictly smaller, so elements with equal
    keys keep their order. *)

Section SortBy.

Context {A K : Type}.
Variable key : A -> K.
Variable klt : K -> K -> bool.

Fixpoint insert_by (x : A) (l : list A) : list A :=
  match l with
  | [] => [x]
  | y :: l' =>
      if klt (key y) (key x) then y :: insert_by x l' else x :: y :: l'
  end.

Definition sort_by (l : list A) : list A := fold_right insert_by [] l.

End SortBy.

(** [<] on the tuples [(angle, chart1_planet, chart2_planet)]: the first
    component that differs decides. *)
Definition key_lt (k1 k2 : Z * string * string) : bool :=
  let '(a1, b1, c1) := k1 in
  let '(a2, b2, c2) := k2 in
  if negb (a1 =? a2)%Z then (a1 <? a2)%Z
  else if negb (String.eqb b1 b2) then String.ltb b1 b2
  else String.ltb c1 c2.

Definition aspect_key (x : aspect) : Z * string * string :=
  (angle x, chart1_planet x, chart2_planet x).

(** ** Aspect engine *)

Inductive mode : Type := natal | synastry.

(** The circular separation of two longitudes:
<<
    diff = abs(long1 - long2)
    diff = min(diff, 360 - diff)
>> *)
Definition circular_diff (long1 long2 : Q) : Q :=
  let diff := Py.abs (long1 - long2) in
  Py.min diff (360 - diff).

(** [for target_angle, aspect_data in ASPECTS.items()], appending a match
    to [aspects_list] for every target within the orb. *)
Definition match_targets (orb_deg : Q) (p1 p2 : string) (diff : Q)
           (aspects_list : list aspect) : list aspect :=
  fold_left
    (fun (acc : list aspect) (item : Z * aspect_data) =>
       let (target_angle, data) := item in
       let deviation := Py.abs (diff - inject_Z target_angle) in
       if Py.le deviation orb_deg then
         (acc ++ [ {| angle := target_angle;
                     aspect_name := ad_name data;
                     aspect_type := ad_type data;
                     symbol := ad_symbol data;
                     orb := orb_deg;
                     actual_angle_diff := deviation;
                     chart1_planet := p1;
                     chart2_planet := p2;
                     aspect_dimension :=
                       if String.eqb (ad_type data) "Hard" then "H" else "S" |} ])%list
       else acc)
    ASPECTS aspects_list.

(** The guard [mode == 'natal' and i >= j] that skips a pair. *)
Definition skipped (m : mode) (i j : nat) : bool :=
  match m with
  | natal => Nat.leb j i
  | synastry => false
  end.

(** Truth value of the optional second chart: [None] and the empty
    dictionary are false. *)
Definition truthy (positions2 : option (Py.dict Position)) : bool :=
  match positions2 with
  | None | Some [] => false
  | Some (_ :: _) => true
  end.

Section Engine.

Variable positions1 : Py.dict Position.
Variable positions2 : option (Py.dict Position).

Definition engine_mode : mode :=
  match positions2 with None => natal | Some _ => synastry end.

Definition planets1 : list string := Py.keys positions1.

Definition planets2 : list string :=
  match positions2 with
  | None => Py.keys positions1
  | Some d => Py.keys d
  end.

Definition orb_type : string :=
  match positions2 with None => "Major_Natal" | Some _ => "Major_Synastry" end.

(** The body of the inner loop for the pair [(i, p1)], [(j, p2)]. *)
Definition pair_body (orb_deg : Q) (ip1 jp2 : nat * string)
           (aspects_list : list aspect) : Py.result (list aspect) :=
  let (i, p1) := ip1 in
  let (j, p2) := jp2 in
  if skipped engine_mode i j then Returned aspects_list
  else
    do pos1 <- Py.getitem positions1 p1;
    do pos2 <-
       (if truthy positions2
        then match positions2 with
             | Some d => Py.getitem d p2
             | None => Py.getitem positions1 p2
             end
        else Py.getitem positions1 p2);
    let diff := circular_diff (longitude pos1) (longitude pos2) in
    Returned (match_targets orb_deg p1 p2 diff aspects_list).

Definition calculate_aspects : Py.result (list aspect) :=
  do orb_deg <- Py.getitem ORBS orb_type;
  do aspects_list <-
     Py.for_each (Py.enumerate planets1)
       (fun ip1 acc =>
          Py.for_each (Py.enumerate planets2) (pair_body orb_deg ip1) acc)
       [];
  Returned (sort_by aspect_key key_lt aspects_list).

End Engine.

(** The pairs of names that get past the guard, in the order the two
    loops reach them. *)
Definition candidate_pairs (m : mode) (ps1 ps2 : list string)
  : list (string * string) :=
  flat_map
    (fun ip1 : nat * string =>
       flat_map
         (fun jp2 : nat * string =>
            if skipped m (fst ip1) (fst jp2) then []
            else [(snd ip1, snd jp2)])
         (Py.enumerate ps2))
    (Py.enumerate ps1).


(** ** Vocabulary for the statements *)

Section Readings.

Variable eph : Ephemeris.
Variable person : person_data.

(** What the classical-planet source returns for a body at the requested
    instant and one hour later. *)
Definition now_deg (b : pyephem_body) : Q := hlong_deg eph b (observer person).
Definition later_deg (b : pyephem_body) : Q :=
  hlong_deg eph b (observer_future person).

(** The corrected one-hour difference of a body is negative. *)
Definition drifts_back (b : pyephem_body) : bool :=
  Py.lt (corrected_diff (now_deg b) (later_deg b)) 0.

Definition planet_entry (p : string) (b : pyephem_body) : string * Position :=
  (p, {| longitude := now_deg b;
         is_retrograde := drifts_back b;
         Rx_symbol := if drifts_back b then "Rx" else "" |}).

Definition luminary_entry (p : string) (b : pyephem_body) : string * Position :=
  (p, {| longitude := now_deg b; is_retrograde := false; Rx_symbol := "" |}).

(** The map the loop over [PLANETS] builds when it gets to its end,
    written out. *)
Definition resolved_map : Py.dict Position :=
  [luminary_entry "Sun" EphemSun;
   luminary_entry "Moon" EphemMoon;
   planet_entry "Mercury" EphemMercury;
   planet_entry "Venus" EphemVenus;
   planet_entry "Mars" EphemMars;
   planet_entry "Jupiter" EphemJupiter;
   planet_entry "Saturn" EphemSaturn;
   planet_entry "Uranus" EphemUranus;
   planet_entry "Neptune" EphemNeptune;
   planet_entry "Pluto" EphemPluto;
   ("Chiron",
    {| longitude := 0;
       is_retrograde := false;
       Rx_symbol := if drifts_back EphemPluto then "Rx" else "" |})].

End Readings.

(** [<=] on sort keys, as a proposition. *)
Definition key_le (k1 k2 : Z * string * string) : Prop := key_lt k2 k1 = false.

Definition aspect_le (x y : aspect) : Prop := key_le (aspect_key x) (aspect_key y).

(** The list [aspects_list] holds just before it is sorted. *)
Definition unsorted_aspects (positions1 : Py.dict Position)
           (positions2 : option (Py.dict Position)) : Py.result (list aspect) :=
  do orb_deg <- Py.getitem ORBS (orb_type positions2);
  Py.for_each (Py.enumerate (planets1 positions1))
    (fun ip1 acc =>
       Py.for_each (Py.enumerate (planets2 positions1 positions2))
         (pair_body positions1 positions2 orb_deg ip1) acc)
    [].

(** The pairs of positions [i < j] of a list, in the spec's words: each
    element paired with every later one. *)
Fixpoint upper_pairs (xs : list string) : list (string * string) :=
  match xs with
  | [] => []
  | x :: xs' => map (pair x) xs' ++ upper_pairs xs'
  end.

(** The chart the second name of a pair is looked up in. *)
Definition second_chart (positions1 : Py.dict Position)
           (positions2 : option (Py.dict Position)) : Py.dict Position :=
  match positions2 with
  | Some d => d
  | None => positions1
  end.

(** The longitude a chart holds for a name (0 for a name it lacks). *)
Definition lon_of (d : Py.dict Position) (p : string) : Q :=
  match Py.get d p with
  | Some pos => longitude pos
  | None => 0
  end.

(** The orb each mode works with. *)
Definition engine_orb (positions2 : option (Py.dict Position)) : Q :=
  match positions2 with
  | None => 3.0
  | Some _ => 1.0
  end.

(** The matches one pair of names contributes. *)
Definition pair_matches (positions1 : Py.dict Position)
           (positions2 : option (Py.dict Position)) (pq : string * string)
  : list aspect :=
  match_targets (engine_orb positions2) (fst pq) (snd pq)
    (circular_diff (lon_of positions1 (fst pq))
                   (lon_of (second_chart positions1 positions2) (snd pq)))
    [].

(** What one pass of the inner loop body appends. *)
Definition body_matches (positions1 : Py.dict Position)
           (positions2 : option (Py.dict Position)) (ip1 jp2 : nat * string)
  : list aspect :=
  if skipped (engine_mode positions2) (fst ip1) (fst jp2) then []
  else pair_matches positions1 positions2 (snd ip1, snd jp2).

(** Ascending order on (angle, chart-1 name, chart-2 name), in the spec's
    words: lexicographic, names compared as strings. *)
Definition str_lt (s1 s2 : string) : Prop := String.compare s1 s2 = Lt.
Definition str_le (s1 s2 : string) : Prop := String.compare s1 s2 <> Gt.

Definition ascending (x y : aspect) : Prop :=
  (angle x < angle y)%Z \/
  (angle x = angle y /\
   (str_lt (chart1_planet x) (chart1_planet y) \/
    (chart1_planet x = chart1_planet y /\
     str_le (chart2_planet x) (chart2_planet y)))).

(** [x] may stand before [y] in a sorted list: the key of [y] is not
    smaller than the key of [x]. *)
Definition may_precede {A K : Type} (key : A -> K) (klt : K -> K -> bool)
           (x y : A) : Prop :=
  klt (key y) (key x) = false.

(** The record the engine appends for a pair of names at separation
    [diff] and a row of [ASPECTS]. *)
Definition make_aspect (orb_deg : Q) (p1 p2 : string) (diff : Q)
           (item : Z * aspect_data) : aspect :=
  {| angle := fst item;
     aspect_name := ad_name (snd item);
     aspect_type := ad_type (snd item);
     symbol := ad_symbol (snd item);
     orb := orb_deg;
     actual_angle_diff := Py.abs (diff - inject_Z (fst item));
     chart1_planet := p1;
     chart2_planet := p2;
     aspect_dimension :=
       if String.eqb (ad_type (snd item)) "Hard" then "H" else "S" |}.

(** The separation the engine computes for a pair of names. *)
Definition pair_diff (positions1 : Py.dict Position)
           (positions2 : option (Py.dict Position)) (pq : string * string) : Q :=
  circular_diff (lon_of positions1 (fst pq))
                (lon_of (second_chart positions1 positions2) (snd pq)).

(** What the engine reads of a chart: its names and their longitudes. *)
Definition longitudes (d : Py.dict Position) : list (string * Q) :=
  map (fun kv : string * Position => (fst kv, longitude (snd kv))) d.



(** ** Sample inputs *)

Definition person_sample : person_data :=
  {| name := "Madonna";
     dt_local := 0;
     latitude := 42.65;
     longitude_of_birth := -83.89;
     timezone_offset := -5 |}.


(** Pluto moves from 10 to 9.9 degrees in the hour; every other classical
    body moves from 20 to 20.5 degrees; no minor-body source. *)
Definition eph_pluto_back : Ephemeris :=
  {| hlong_deg := fun b obs =>
       let first := (date obs =? dt_utc person_sample)%Z in
       match b with
       | EphemPluto => if first then 10 else 9.9
       | _ => if first then 20 else 20.5
       end;
     chiron_skyfield := None |}.




Definition at_deg (d : Q) : Position :=
  {| longitude := d; is_retrograde := false; Rx_symbol := "" |}.

Definition chart_sample : Py.dict Position :=
  [("Sun", at_deg 10.0); ("Moon", at_deg 100.2); ("Mars", at_deg 130.0)].

(** The chart of [person_sample] under another name, with its local
    time already in UTC. *)
Definition person_utc : person_data :=
  {| name := "Sean Penn";
     dt_local := 18000;
     latitude := 42.65;
     longitude_of_birth := -83.89;
     timezone_offset := 0 |}.

(** [chart_sample] with every body marked retrograde. *)
Definition chart_sample_rx : Py.dict Position :=
  [("Sun", {| longitude := 10.0; is_retrograde := true; Rx_symbol := "Rx" |});
   ("Moon", {| longitude := 100.2; is_retrograde := true; Rx_symbol := "Rx" |});
   ("Mars", {| longitude := 130.0; is_retrograde := true; Rx_symbol := "Rx" |})].

(** The aspects of [chart_sample] in natal mode. *)
Definition aspects_sample : list aspect :=
  Eval vm_compute in
    match calculate_aspects chart_sample None with
    | Returned l => l
    | Raised _ => []
    end.

(** Case analysis on a float comparison, keeping the boolean and the order. *)
Ltac case_lt x y :=
  let E := fresh "E" in
  let L := fresh "L" in
  destruct (Py.lt x y) eqn:E;
  [ assert (L : x < y)
      by (unfold Py.lt in E; apply negb_true_iff in E;
          apply Qnot_le_lt; intro; rewrite <- Qle_bool_iff in *; congruence)
  | assert (L : y <= x)
      by (unfold Py.lt in E; apply negb_false_iff in E;
          apply Qle_bool_iff; exact E) ].


(** Splits every float comparison of the goal and closes it by linear
    arithmetic. *)
Ltac split_comparisons :=
  repeat match goal with
         | |- context [Py.lt ?x ?y] => case_lt x y
         end;
  try lra.

(** * Properties *)

(** ** Float comparisons, [abs] and [min] *)


Lemma lt_false_spec (x y : Q) : Py.lt x y = false <-> y <= x.
Proof.
  unfold Py.lt. rewrite negb_false_iff. apply Qle_bool_iff.
Qed.

Lemma abs_Qabs (x : Q) : Py.abs x == Qabs x.
Proof.
  unfold Py.abs. case_lt x 0.
  - symmetry. apply Qabs_neg. lra.
  - symmetry. apply Qabs_pos. exact L.
Qed.


(** ** The corrected one-hour difference *)


(** ** Loops and dictionaries *)

Lemma for_each_app {A S : Type} (body : A -> S -> Py.result S)
      (xs ys : list A) (s : S) :
  Py.for_each (xs ++ ys) body s =
  Py.bind (Py.for_each xs body s) (Py.for_each ys body).
Proof.
  revert s. induction xs as [|x xs IH]; intros s; simpl.
  - reflexivity.
  - destruct (body x s) as [s'|e]; simpl; [apply IH|reflexivity].
Qed.

(** A property of the locals that every iteration keeps holds when the
    loop returns. *)
Lemma for_each_invariant {A S : Type} (P : S -> Prop)
      (body : A -> S -> Py.result S) (xs : list A) :
  (forall x s s', P s -> body x s = Returned s' -> P s') ->
  forall s s', P s -> Py.for_each xs body s = Returned s' -> P s'.
Proof.
  intros Hstep. induction xs as [|x xs IH]; intros s s' Hs Hrun; simpl in Hrun.
  - injection Hrun as <-. exact Hs.
  - destruct (body x s) as [s1|e] eqn:E; simpl in Hrun; [|discriminate].
    exact (IH s1 s' (Hstep x s s1 Hs E) Hrun).
Qed.

Lemma get_setitem {V : Type} (d : Py.dict V) (k k' : string) (v : V) :
  Py.get (Py.setitem d k v) k' =
  if String.eqb k k' then Some v else Py.get d k'.
Proof.
  induction d as [|[k0 v0] d IH]; cbn [Py.get Py.setitem].
  - reflexivity.
  - destruct (String.eqb_spec k0 k) as [->|Hne]; cbn [Py.get].
    + destruct (String.eqb k k'); reflexivity.
    + rewrite IH.
      destruct (String.eqb_spec k0 k') as [->|Hne'];
        destruct (String.eqb_spec k k') as [->|Hne'']; congruence.
Qed.

(** ** The resolved map over the fixed roster *)

(** Without the skyfield ephemeris the loop over [PLANETS] unfolds to
    eleven stores, whatever the classical source answers. *)
Lemma calculate_positions_closed (eph : Ephemeris) (person : person_data) :
  chiron_skyfield eph = None ->
  calculate_positions eph person = Returned (resolved_map eph person).
Proof.
  intros E.
  unfold calculate_positions, calculate_positions_over, PLANETS, resolved_map.
  cbn. rewrite E. reflexivity.
Qed.

(** With it, the eleventh iteration raises and no map is returned. *)
Lemma calculate_positions_loaded (eph : Ephemeris) (person : person_data) :
  chiron_skyfield eph <> None ->
  calculate_positions eph person = Raised (AttributeError "at").
Proof.
  intros E.
  unfold calculate_positions, calculate_positions_over, PLANETS.
  cbn. destruct (chiron_skyfield eph); [reflexivity|congruence].
Qed.

Lemma calculate_positions_returned
      (eph : Ephemeris) (person : person_data) (resolved : Py.dict Position) :
  calculate_positions eph person = Returned resolved ->
  chiron_skyfield eph = None /\ resolved = resolved_map eph person.
Proof.
  intros H. destruct (chiron_skyfield eph) as [f|] eqn:E.
  - rewrite calculate_positions_loaded in H by congruence. discriminate.
  - rewrite (calculate_positions_closed eph person E) in H.
    injection H as <-. split; reflexivity.
Qed.






(** The marker follows the flag for every entry but Chiron's. *)
Lemma marker_follows_flag_except_chiron
      (eph : Ephemeris) (person : person_data) (p : string) (pos : Position) :
  p <> "Chiron" ->
  In (p, pos)
     (match calculate_positions eph person with
      | Returned d => d | Raised _ => [] end) ->
  Rx_symbol pos = if is_retrograde pos then "Rx" else "".
Proof.
  intros Hp. destruct (chiron_skyfield eph) as [f|] eqn:E.
  - rewrite calculate_positions_loaded by congruence. intros [].
  - rewrite (calculate_positions_closed eph person E).
    unfold resolved_map, luminary_entry, planet_entry. simpl.
    intros H.
    repeat (destruct H as [H|H];
            [injection H as <- <-; try reflexivity; congruence|]).
    contradiction.
Qed.

(** C3. The marker can differ from the flag: with Pluto moving from 10 to
    9.9 degrees in the hour, the entry stored for Chiron has
    [is_retrograde] false and [Rx_symbol] "Rx". *)
Theorem chiron_marker_without_flag :
  exists (resolved : Py.dict Position) (pos : Position),
    calculate_positions eph_pluto_back person_sample = Returned resolved /\
    Py.get resolved "Chiron" = Some pos /\
    is_retrograde pos = false /\
    Rx_symbol pos = "Rx" /\
    Rx_symbol pos <> (if is_retrograde pos then "Rx" else "").
Proof.
  eexists _, _. split; [apply calculate_positions_closed; reflexivity|].
  split; [reflexivity|]. split; [reflexivity|].
  split; [reflexivity|]. discriminate.
Qed.











(** ** Names outside the roster *)

(** A name the two branches of the loop body know is a roster name. *)
Lemma pyephem_name_in_roster (p : string) (b : pyephem_body) :
  get_pyephem_body p = Some b -> In p PLANETS.
Proof.
  unfold get_pyephem_body, PLANETS.
  repeat match goal with
         | |- context [String.eqb p ?k] =>
             destruct (String.eqb_spec p k) as [->|?]; [simpl; tauto|]
         end.
  discriminate.
Qed.

Lemma outside_roster (x : string) :
  ~ In x PLANETS -> String.eqb x "Chiron" = false /\ get_pyephem_body x = None.
Proof.
  intros Hx. split.
  - destruct (String.eqb_spec x "Chiron") as [->|]; [|reflexivity].
    exfalso. apply Hx. simpl. tauto.
  - destruct (get_pyephem_body x) as [b|] eqn:E; [|reflexivity].
    exfalso. exact (Hx (pyephem_name_in_roster x b E)).
Qed.

(** An iteration for a name outside the roster leaves the locals alone. *)
Lemma resolve_body_outside_roster
      (eph : Ephemeris) (person : person_data) (x : string) (st : locals) :
  ~ In x PLANETS -> resolve_body eph person x st = Returned st.
Proof.
  intros Hx. destruct (outside_roster x Hx) as [Hc Hb].
  unfold resolve_body. rewrite Hc, Hb. reflexivity.
Qed.

Lemma store_keys (p : string) (deg : Q) (st st' : locals) :
  store p deg st = Returned st' ->
  forall k, Py.get (positions st') k <> None ->
            k = p \/ Py.get (positions st) k <> None.
Proof.
  unfold store. intros H k Hk.
  destruct (if negb (String.eqb p "Chiron")
               && negb (Py.contains ["Sun"; "Moon"] p)
            then Py.read_local "is_retrograde" (is_retrograde_var st)
            else Returned false) as [retro|e]; [|discriminate].
  destruct (if negb (Py.contains ["Sun"; "Moon"] p)
            then Py.read_local "is_retrograde" (is_retrograde_var st)
            else Returned false) as [marked|e]; [|discriminate].
  cbn [Py.bind] in H. injection H as <-. cbn [positions] in Hk.
  rewrite get_setitem in Hk.
  destruct (String.eqb_spec p k) as [->|]; [left; reflexivity|right; exact Hk].
Qed.

(** Every key of the map the loop builds is a roster name. *)
Lemma resolved_keys_in_roster
      (eph : Ephemeris) (person : person_data) (roster : list string)
      (resolved : Py.dict Position) :
  calculate_positions_over eph person roster = Returned resolved ->
  forall k, Py.get resolved k <> None -> In k PLANETS.
Proof.
  unfold calculate_positions_over. intros H.
  destruct (Py.for_each roster (resolve_body eph person)
              {| positions := []; is_retrograde_var := None |})
    as [st|e] eqn:E; [|discriminate].
  cbn [Py.bind] in H. injection H as <-.
  revert E.
  apply (for_each_invariant
           (fun st => forall k, Py.get (positions st) k <> None -> In k PLANETS)).
  - intros p s s' Hs Hstep k Hk. unfold resolve_body in Hstep.
    destruct (String.eqb_spec p "Chiron") as [->|Hne].
    + assert (Hkeys : k = "Chiron" \/ Py.get (positions s) k <> None).
      { destruct (chiron_skyfield eph); [discriminate|].
        exact (store_keys _ _ _ _ Hstep k Hk). }
      destruct Hkeys as [->|Hold]; [simpl; tauto|exact (Hs k Hold)].
    + destruct (get_pyephem_body p) as [b|] eqn:Eb.
      * destruct (store_keys _ _ _ _ Hstep k Hk) as [->|Hold].
        -- exact (pyephem_name_in_roster p b Eb).
        -- exact (Hs k Hold).
      * injection Hstep as <-. exact (Hs k Hk).
  - intros k Hk. exfalso. apply Hk. reflexivity.
Qed.

(** C10 as stated fails: with "Ceres" added to the roster the resolver
    returns, and the map has no entry for "Ceres". *)
Lemma unknown_body_does_not_fail :
  ~ In "Ceres" PLANETS /\
  (forall e : Py.exn,
      calculate_positions_over eph_pluto_back person_sample
        (PLANETS ++ ["Ceres"]) <> Raised e) /\
  exists resolved : Py.dict Position,
    calculate_positions_over eph_pluto_back person_sample
      (PLANETS ++ ["Ceres"]) = Returned resolved /\
    Py.get resolved "Ceres" = None.
Proof.
  assert (Hrun : calculate_positions_over eph_pluto_back person_sample
                   (PLANETS ++ ["Ceres"])
                 = Returned (resolved_map eph_pluto_back person_sample))
    by reflexivity.
  split; [|split].
  - simpl. intros H.
    repeat (destruct H as [H|H]; [discriminate|]). exact H.
  - intros e. rewrite Hrun. discriminate.
  - eexists. split; [exact Hrun|reflexivity].
Qed.

(** C10, amended. A name outside the roster is passed over: the resolver
    gives the result it gives without that name, raises nothing on its
    account, and the returned map has no entry for it. *)
Theorem unknown_body_is_passed_over
        (eph : Ephemeris) (person : person_data)
        (before after : list string) (x : string) :
  ~ In x PLANETS ->
  calculate_positions_over eph person (before ++ x :: after) =
    calculate_positions_over eph person (before ++ after) /\
  forall resolved : Py.dict Position,
    calculate_positions_over eph person (before ++ x :: after) = Returned resolved ->
    Py.get resolved x = None.
Proof.
  intros Hx. split.
  - unfold calculate_positions_over. rewrite !for_each_app.
    destruct (Py.for_each before (resolve_body eph person)
                {| positions := []; is_retrograde_var := None |}) as [st|e];
      [|reflexivity].
    cbn [Py.bind Py.for_each].
    rewrite (resolve_body_outside_roster eph person x st Hx). reflexivity.
  - intros resolved Hrun.
    destruct (Py.get resolved x) as [pos|] eqn:E; [|reflexivity].
    exfalso. apply Hx.
    apply (resolved_keys_in_roster eph person _ resolved Hrun).
    rewrite E. discriminate.
Qed.

Lemma unknown_body_is_passed_over_witness :
  ~ In "Ceres" PLANETS /\
  calculate_positions_over eph_pluto_back person_sample
    (["Sun"; "Pluto"] ++ "Ceres" :: ["Chiron"]) =
  calculate_positions_over eph_pluto_back person_sample
    (["Sun"; "Pluto"] ++ ["Chiron"]).
Proof.
  assert (Hx : ~ In "Ceres" PLANETS).
  { simpl. intros H.
    repeat (destruct H as [H|H]; [discriminate|]). exact H. }
  split; [exact Hx|].
  exact (proj1 (unknown_body_is_passed_over eph_pluto_back person_sample
                  ["Sun"; "Pluto"] ["Chiron"] "Ceres" Hx)).
Defined.

(** ** Circular separation *)

Lemma circular_diff_sym (a b : Q) : circular_diff a b == circular_diff b a.
Proof.
  unfold circular_diff, Py.min, Py.abs. cbv zeta. split_comparisons.
Qed.





(** ** Pair enumeration *)

Lemma enumerate_from_ge {A : Type} (xs : list A) (k j : nat) (q : A) :
  In (j, q) (Py.enumerate_from k xs) -> (k <= j)%nat.
Proof.
  revert k. induction xs as [|x xs IH]; intros k H; simpl in H.
  - contradiction.
  - destruct H as [H|H].
    + injection H as <- _. apply Nat.le_refl.
    + apply IH in H. lia.
Qed.

Lemma enumerate_from_snd {A : Type} (xs : list A) (k : nat) :
  map snd (Py.enumerate_from k xs) = xs.
Proof.
  revert k. induction xs as [|x xs IH]; intros k; simpl.
  - reflexivity.
  - rewrite IH. reflexivity.
Qed.

Lemma flat_map_ext_in {A B : Type} (f g : A -> list B) (l : list A) :
  (forall a, In a l -> f a = g a) -> flat_map f l = flat_map g l.
Proof.
  induction l as [|a l IH]; intros H; simpl.
  - reflexivity.
  - rewrite (H a (or_introl eq_refl)), IH; [reflexivity|].
    intros b Hb. apply H. right. exact Hb.
Qed.

Lemma flat_map_singleton {A B : Type} (f : A -> B) (l : list A) :
  flat_map (fun a => [f a]) l = map f l.
Proof.
  induction l as [|a l IH]; simpl; [reflexivity|]. rewrite IH. reflexivity.
Qed.

(** In natal mode the two loops reach each element paired with every
    later one, wherever the numbering starts. *)
Lemma natal_pairs_from (xs : list string) (k : nat) :
  flat_map
    (fun ip1 : nat * string =>
       flat_map
         (fun jp2 : nat * string =>
            if skipped natal (fst ip1) (fst jp2) then []
            else [(snd ip1, snd jp2)])
         (Py.enumerate_from k xs))
    (Py.enumerate_from k xs)
  = upper_pairs xs.
Proof.
  revert k. induction xs as [|x xs IH]; intros k.
  - reflexivity.
  - cbn [Py.enumerate_from flat_map upper_pairs skipped fst snd].
    rewrite Nat.leb_refl. cbn [app].
    f_equal.
    + rewrite (flat_map_ext_in _ (fun jp2 : nat * string => [(x, snd jp2)])).
      * rewrite flat_map_singleton.
        rewrite <- (enumerate_from_snd xs (S k)) at 2.
        rewrite map_map. reflexivity.
      * intros [j q] Hj. apply enumerate_from_ge in Hj. cbn [fst snd].
        destruct (Nat.leb_spec j k); [lia|reflexivity].
    + rewrite <- (IH (S k)).
      apply flat_map_ext_in. intros [i p] Hi.
      apply enumerate_from_ge in Hi. cbn [fst snd skipped].
      destruct (Nat.leb_spec k i); [reflexivity|lia].
Qed.

Lemma candidate_pairs_natal (xs : list string) :
  candidate_pairs natal xs xs = upper_pairs xs.
Proof. apply natal_pairs_from. Qed.

(** In synastry mode the loops reach the whole cross product. *)
Lemma candidate_pairs_synastry (xs ys : list string) :
  candidate_pairs synastry xs ys = list_prod xs ys.
Proof.
  unfold candidate_pairs, Py.enumerate. rewrite list_prod_as_flat_map.
  generalize 0%nat at 2 as k. generalize 0%nat as k'.
  induction xs as [|x xs IH]; intros k' k; simpl.
  - reflexivity.
  - rewrite IH. f_equal.
    rewrite flat_map_singleton.
    rewrite <- (enumerate_from_snd ys k') at 2.
    rewrite map_map. reflexivity.
Qed.

Lemma upper_pairs_count (xs : list string) :
  (2 * List.length (upper_pairs xs) = List.length xs * (List.length xs - 1))%nat.
Proof.
  induction xs as [|x xs IH]; simpl.
  - reflexivity.
  - rewrite List.length_app, List.length_map. nia.
Qed.

Lemma upper_pairs_members (xs : list string) (p q : string) :
  In (p, q) (upper_pairs xs) -> In p xs /\ In q xs.
Proof.
  induction xs as [|x xs IH]; simpl; [contradiction|].
  intros H. apply in_app_or in H. destruct H as [H|H].
  - apply in_map_iff in H. destruct H as (y & Hy & Hin).
    injection Hy as <- <-. tauto.
  - apply IH in H. tauto.
Qed.

Lemma upper_pairs_ordered (xs : list string) (p q : string) :
  NoDup xs -> In (p, q) (upper_pairs xs) ->
  p <> q /\ ~ In (q, p) (upper_pairs xs).
Proof.
  induction xs as [|x xs IH]; simpl; [contradiction|].
  intros Hnd H. inversion Hnd as [|x' xs' Hx Hnd']; subst.
  apply in_app_or in H. destruct H as [H|H].
  - apply in_map_iff in H. destruct H as (y & Hy & Hin).
    injection Hy as <- <-. split.
    + intros <-. exact (Hx Hin).
    + intros Hback. apply in_app_or in Hback. destruct Hback as [Hb|Hb].
      * apply in_map_iff in Hb. destruct Hb as (z & Hz & _).
        injection Hz as <- _. exact (Hx Hin).
      * apply upper_pairs_members in Hb. tauto.
  - destruct (IH Hnd' H) as [Hne Hno]. split; [exact Hne|].
    intros Hback. apply in_app_or in Hback. destruct Hback as [Hb|Hb].
    + apply in_map_iff in Hb. destruct Hb as (z & Hz & _).
      injection Hz as <- _. apply upper_pairs_members in H. tauto.
    + exact (Hno Hb).
Qed.

Lemma upper_pairs_NoDup (xs : list string) :
  NoDup xs -> NoDup (upper_pairs xs).
Proof.
  induction xs as [|x xs IH]; simpl; intros Hnd; [constructor|].
  inversion Hnd as [|x' xs' Hx Hnd']; subst.
  apply NoDup_app.
  - apply NoDup_map_NoDup_ForallPairs; [|exact Hnd'].
    intros a b _ _ E. injection E as ->. reflexivity.
  - exact (IH Hnd').
  - intros [p q] Hin Hup. apply in_map_iff in Hin.
    destruct Hin as (y & Hy & _). injection Hy as <- _.
    apply upper_pairs_members in Hup. tauto.
Qed.

Lemma upper_pairs_complete (xs : list string) (p q : string) :
  In p xs -> In q xs -> p <> q ->
  In (p, q) (upper_pairs xs) \/ In (q, p) (upper_pairs xs).
Proof.
  induction xs as [|x xs IH]; simpl; [contradiction|].
  intros [Hp|Hp] [Hq|Hq] Hne; subst.
  - congruence.
  - left. apply in_or_app. left. apply in_map. exact Hq.
  - right. apply in_or_app. left. apply in_map. exact Hp.
  - destruct (IH Hp Hq Hne) as [H|H];
      [left|right]; apply in_or_app; right; exact H.
Qed.

(** ** The engine's loops *)

Lemma flat_map_flat_map {A B C : Type} (f : B -> list C) (g : A -> list B)
      (l : list A) :
  flat_map f (flat_map g l) = flat_map (fun a => flat_map f (g a)) l.
Proof.
  induction l as [|a l IH]; simpl; [reflexivity|].
  rewrite flat_map_app, IH. reflexivity.
Qed.

Lemma enumerate_from_member {A : Type} (xs : list A) (k : nat) (jx : nat * A) :
  In jx (Py.enumerate_from k xs) -> In (snd jx) xs.
Proof.
  intros H. rewrite <- (enumerate_from_snd xs k). apply in_map. exact H.
Qed.

Lemma get_of_key {V : Type} (d : Py.dict V) (k : string) :
  In k (Py.keys d) -> exists v, Py.get d k = Some v.
Proof.
  induction d as [|[k0 v0] d IH]; simpl; [contradiction|].
  intros H. destruct (String.eqb_spec k0 k) as [E|Hne].
  - exists v0. reflexivity.
  - destruct H as [H|H]; [congruence|exact (IH H)].
Qed.

Lemma getitem_of_key (d : Py.dict Position) (k : string) :
  In k (Py.keys d) ->
  exists pos, Py.getitem d k = Returned pos /\ longitude pos = lon_of d k.
Proof.
  intros H. destruct (get_of_key d k H) as (pos & Hpos).
  exists pos. unfold Py.getitem, lon_of. rewrite Hpos. split; reflexivity.
Qed.

(** Matches are appended behind what the list already holds. *)
Lemma match_targets_acc (orb_deg : Q) (p1 p2 : string) (diff : Q)
      (acc : list aspect) :
  match_targets orb_deg p1 p2 diff acc =
  (acc ++ match_targets orb_deg p1 p2 diff [])%list.
Proof.
  unfold match_targets. generalize ASPECTS as items. intros items.
  revert acc. induction items as [|[target data] items IH]; intros acc.
  - simpl. rewrite app_nil_r. reflexivity.
  - cbn [fold_left]. rewrite IH. symmetry. rewrite IH. symmetry.
    destruct (Py.le (Py.abs (diff - inject_Z target)) orb_deg).
    + cbn [app]. rewrite <- app_assoc. reflexivity.
    + rewrite app_nil_l. reflexivity.
Qed.

Section EngineLoops.

Variable positions1 : Py.dict Position.
Variable positions2 : option (Py.dict Position).

Lemma pair_body_returns (ip1 jp2 : nat * string) (acc : list aspect) :
  In (snd ip1) (planets1 positions1) ->
  In (snd jp2) (planets2 positions1 positions2) ->
  pair_body positions1 positions2 (engine_orb positions2) ip1 jp2 acc =
  Returned (acc ++ body_matches positions1 positions2 ip1 jp2)%list.
Proof.
  destruct ip1 as [i p1], jp2 as [j p2]. cbn [fst snd].
  intros H1 H2. unfold pair_body, body_matches. cbn [fst snd].
  destruct (skipped (engine_mode positions2) i j).
  - rewrite app_nil_r. reflexivity.
  - destruct (getitem_of_key positions1 p1 H1) as (pos1 & -> & L1).
    cbn [Py.bind].
    assert (Hsecond :
              exists pos2,
                (if truthy positions2
                 then match positions2 with
                      | Some d => Py.getitem d p2
                      | None => Py.getitem positions1 p2
                      end
                 else Py.getitem positions1 p2) = Returned pos2 /\
                longitude pos2 =
                  lon_of (second_chart positions1 positions2) p2).
    { unfold planets2 in H2. destruct positions2 as [[|e d]|]; cbn [truthy].
      - contradiction.
      - exact (getitem_of_key (e :: d) p2 H2).
      - exact (getitem_of_key positions1 p2 H2). }
    destruct Hsecond as (pos2 & -> & L2). cbn [Py.bind].
    rewrite match_targets_acc. unfold pair_matches. cbn [fst snd].
    rewrite L1, L2. reflexivity.
Qed.

Lemma inner_loop_returns (ip1 : nat * string) (l2 : list (nat * string))
      (acc : list aspect) :
  In (snd ip1) (planets1 positions1) ->
  (forall jp2, In jp2 l2 -> In (snd jp2) (planets2 positions1 positions2)) ->
  Py.for_each l2
    (pair_body positions1 positions2 (engine_orb positions2) ip1) acc =
  Returned (acc ++ flat_map (body_matches positions1 positions2 ip1) l2)%list.
Proof.
  intros H1. revert acc. induction l2 as [|jp2 l2 IH]; intros acc H2.
  - simpl. rewrite app_nil_r. reflexivity.
  - cbn [Py.for_each flat_map].
    rewrite pair_body_returns by (try exact H1; apply H2; left; reflexivity).
    cbn [Py.bind]. rewrite IH by (intros x Hx; apply H2; right; exact Hx).
    rewrite app_assoc. reflexivity.
Qed.

Lemma outer_loop_returns (l1 l2 : list (nat * string)) (acc : list aspect) :
  (forall ip1, In ip1 l1 -> In (snd ip1) (planets1 positions1)) ->
  (forall jp2, In jp2 l2 -> In (snd jp2) (planets2 positions1 positions2)) ->
  Py.for_each l1
    (fun ip1 acc' =>
       Py.for_each l2
         (pair_body positions1 positions2 (engine_orb positions2) ip1) acc')
    acc =
  Returned (acc ++ flat_map (fun ip1 => flat_map (body_matches positions1 positions2 ip1) l2) l1)%list.
Proof.
  intros H1 H2. revert acc H1. induction l1 as [|ip1 l1 IH]; intros acc H1.
  - simpl. rewrite app_nil_r. reflexivity.
  - cbn [Py.for_each flat_map].
    rewrite inner_loop_returns by (try exact H2; apply H1; left; reflexivity).
    cbn [Py.bind]. rewrite IH by (intros x Hx; apply H1; right; exact Hx).
    rewrite app_assoc. reflexivity.
Qed.

(** The engine always returns: before sorting, its list holds the matches
    of the candidate pairs, pair after pair. *)
Lemma unsorted_aspects_returns :
  unsorted_aspects positions1 positions2 =
  Returned
    (flat_map (pair_matches positions1 positions2)
       (candidate_pairs (engine_mode positions2) (planets1 positions1)
          (planets2 positions1 positions2))).
Proof.
  unfold unsorted_aspects.
  assert (Horb : Py.getitem ORBS (orb_type positions2)
                 = Returned (engine_orb positions2))
    by (destruct positions2; reflexivity).
  rewrite Horb. cbn [Py.bind].
  rewrite outer_loop_returns
    by (intros x Hx; exact (enumerate_from_member _ _ _ Hx)).
  cbn [app]. unfold candidate_pairs. f_equal.
  rewrite flat_map_flat_map. apply flat_map_ext. intros ip1.
  rewrite flat_map_flat_map. apply flat_map_ext. intros jp2.
  unfold body_matches.
  destruct (skipped (engine_mode positions2) (fst ip1) (fst jp2)).
  - reflexivity.
  - simpl. rewrite app_nil_r. reflexivity.
Qed.

Lemma calculate_aspects_sorts_unsorted :
  calculate_aspects positions1 positions2 =
  do raw <- unsorted_aspects positions1 positions2;
  Returned (sort_by aspect_key key_lt raw).
Proof.
  unfold calculate_aspects, unsorted_aspects.
  destruct (Py.getitem ORBS (orb_type positions2)); reflexivity.
Qed.

End EngineLoops.

(** ** The stable sort *)

Section SortFacts.

Context {A K : Type}.
Variable key : A -> K.
Variable klt : K -> K -> bool.

Hypothesis klt_asym : forall k1 k2, klt k1 k2 = true -> klt k2 k1 = false.

Lemma insert_by_perm (x : A) (l : list A) :
  Permutation (insert_by key klt x l) (x :: l).
Proof.
  induction l as [|y l IH]; simpl.
  - apply Permutation_refl.
  - destruct (klt (key y) (key x)).
    + apply perm_trans with (y :: x :: l).
      * apply perm_skip. exact IH.
      * apply perm_swap.
    + apply Permutation_refl.
Qed.

Lemma sort_by_perm (l : list A) : Permutation (sort_by key klt l) l.
Proof.
  induction l as [|x l IH]; simpl.
  - apply perm_nil.
  - apply perm_trans with (x :: sort_by key klt l).
    + apply insert_by_perm.
    + apply perm_skip. exact IH.
Qed.

Lemma insert_by_sorted (x : A) (l : list A) :
  Sorted (may_precede key klt) l -> Sorted (may_precede key klt) (insert_by key klt x l).
Proof.
  induction l as [|y l IH]; intros Hs; simpl.
  - repeat constructor.
  - destruct (klt (key y) (key x)) eqn:E.
    + inversion Hs as [|y' l' Hl Hhd]; subst.
      constructor; [exact (IH Hl)|].
      destruct l as [|z l]; simpl.
      * constructor. exact (klt_asym _ _ E).
      * destruct (klt (key z) (key x)).
        -- inversion Hhd; subst. constructor. assumption.
        -- constructor. exact (klt_asym _ _ E).
    + constructor; [exact Hs|]. constructor. exact E.
Qed.

Lemma sort_by_sorted (l : list A) : Sorted (may_precede key klt) (sort_by key klt l).
Proof.
  induction l as [|x l IH]; simpl.
  - constructor.
  - apply insert_by_sorted. exact IH.
Qed.

(** Sorting a sorted list changes nothing. *)
Lemma sort_by_fixed (l : list A) : Sorted (may_precede key klt) l -> sort_by key klt l = l.
Proof.
  induction l as [|x l IH]; intros Hs; simpl.
  - reflexivity.
  - inversion Hs as [|x' l' Hl Hhd]; subst.
    rewrite (IH Hl). destruct l as [|y l]; simpl.
    + reflexivity.
    + inversion Hhd as [|y' l' Hxy]; subst.
      unfold may_precede in Hxy. rewrite Hxy. reflexivity.
Qed.

End SortFacts.

(** ** Order of the sort keys *)

Lemma ltb_compare (s1 s2 : string) :
  String.ltb s1 s2 = true <-> String.compare s1 s2 = Lt.
Proof.
  unfold String.ltb. destruct (String.compare s1 s2); split; congruence.
Qed.

Lemma compare_refl (s : string) : String.compare s s = Eq.
Proof. apply String_as_OT.cmp_eq. reflexivity. Qed.

Lemma compare_flip (s1 s2 : string) :
  String.compare s1 s2 = Lt <-> String.compare s2 s1 = Gt.
Proof.
  rewrite (String.compare_antisym s2 s1).
  destruct (String.compare s1 s2); simpl; split; congruence.
Qed.

Lemma str_lt_trans (a b c : string) : str_lt a b -> str_lt b c -> str_lt a c.
Proof.
  unfold str_lt. intros H1 H2.
  apply String_as_OT.cmp_lt. apply String_as_OT.cmp_lt in H1, H2.
  exact (String_as_OT.lt_trans _ _ _ H1 H2).
Qed.

Lemma str_le_cases (a b : string) : str_le a b <-> str_lt a b \/ a = b.
Proof.
  unfold str_le, str_lt. split.
  - intros H. destruct (String.compare a b) eqn:E.
    + right. apply String_as_OT.cmp_eq. exact E.
    + left. reflexivity.
    + congruence.
  - intros [H| ->]; [rewrite H|rewrite compare_refl]; discriminate.
Qed.

Lemma str_le_trans (a b c : string) : str_le a b -> str_le b c -> str_le a c.
Proof.
  rewrite !str_le_cases. intros [H1| ->] [H2| ->]; auto.
  left. exact (str_lt_trans a b c H1 H2).
Qed.

Lemma key_lt_asym (k1 k2 : Z * string * string) :
  key_lt k1 k2 = true -> key_lt k2 k1 = false.
Proof.
  destruct k1 as [[a1 b1] c1], k2 as [[a2 b2] c2]. unfold key_lt.
  destruct (Z.eqb_spec a1 a2) as [->|Ha]; cbn [negb].
  - rewrite Z.eqb_refl. cbn [negb].
    destruct (String.eqb_spec b1 b2) as [->|Hb]; cbn [negb].
    + rewrite String.eqb_refl. cbn [negb].
      intros H. apply ltb_compare, compare_flip in H.
      unfold String.ltb. rewrite H. reflexivity.
    + destruct (String.eqb_spec b2 b1) as [E|_]; [congruence|]. cbn [negb].
      intros H. apply ltb_compare, compare_flip in H.
      unfold String.ltb. rewrite H. reflexivity.
  - destruct (Z.eqb_spec a2 a1) as [E|_]; [congruence|]. cbn [negb].
    intros H. apply Z.ltb_lt in H. apply Z.ltb_ge. lia.
Qed.

(** The order the sort works with is the lexicographic order on
    (angle, chart-1 name, chart-2 name). *)
Lemma aspect_le_ascending (x y : aspect) : aspect_le x y <-> ascending x y.
Proof.
  unfold aspect_le, key_le, aspect_key, key_lt, ascending, str_lt, str_le.
  destruct (Z.eqb_spec (angle y) (angle x)) as [E|Hne]; cbn [negb].
  - destruct (String.eqb_spec (chart1_planet y) (chart1_planet x)) as [E1|Hne1];
      cbn [negb].
    + rewrite E, E1. unfold String.ltb.
      rewrite (String.compare_antisym (chart2_planet x) (chart2_planet y)).
      destruct (String.compare (chart2_planet y) (chart2_planet x)); simpl;
        split; intros H; try reflexivity; try discriminate.
      * right. split; [reflexivity|]. right. split; [reflexivity|discriminate].
      * destruct H as [H|(_ & [H|(_ & H)])];
          [lia|rewrite compare_refl in H; discriminate|congruence].
      * right. split; [reflexivity|]. right. split; [reflexivity|discriminate].
    + rewrite E. unfold String.ltb.
      rewrite (String.compare_antisym (chart1_planet x) (chart1_planet y)).
      destruct (String.compare (chart1_planet y) (chart1_planet x)) eqn:C; simpl;
        split; intros H; try reflexivity; try discriminate.
      * apply String_as_OT.cmp_eq in C. congruence.
      * destruct H as [H|(_ & [H|(H & _)])]; [lia|discriminate|congruence].
      * right. split; [reflexivity|]. left. reflexivity.
  - rewrite Z.ltb_ge. split.
    + intros H. left. lia.
    + intros [H|(H & _)]; [lia|congruence].
Qed.

Lemma ascending_trans (x y z : aspect) :
  ascending x y -> ascending y z -> ascending x z.
Proof.
  unfold ascending.
  intros [H1|(E1 & [L1|(F1 & M1)])] [H2|(E2 & [L2|(F2 & M2)])];
    try (left; lia); right; (split; [congruence|]).
  - left. exact (str_lt_trans _ _ _ L1 L2).
  - left. rewrite <- F2. exact L1.
  - left. rewrite F1. exact L2.
  - right. split; [congruence|]. exact (str_le_trans _ _ _ M1 M2).
Qed.

(** ** The engine's result *)

Lemma Sorted_weaken {A : Type} (R R' : A -> A -> Prop) (l : list A) :
  (forall x y, R x y -> R' x y) -> Sorted R l -> Sorted R' l.
Proof.
  intros Himp. induction 1 as [|x l Hl IH Hhd]; constructor.
  - exact IH.
  - destruct Hhd; constructor. apply Himp. assumption.
Qed.

(** The engine returns for every input: the sorted list of the matches of
    the candidate pairs. *)
Lemma calculate_aspects_returns (positions1 : Py.dict Position)
      (positions2 : option (Py.dict Position)) :
  calculate_aspects positions1 positions2 =
  Returned
    (sort_by aspect_key key_lt
       (flat_map (pair_matches positions1 positions2)
          (candidate_pairs (engine_mode positions2) (planets1 positions1)
             (planets2 positions1 positions2)))).
Proof.
  rewrite calculate_aspects_sorts_unsorted, unsorted_aspects_returns.
  reflexivity.
Qed.

(** C6. In both modes the engine returns a sequence in ascending order of
    (angle, chart-1 name, chart-2 name); a second run on the same input
    returns the same sequence, and sorting it again leaves it as it is. *)
Theorem aspects_sorted_and_reproducible
        (positions1 : Py.dict Position)
        (positions2 : option (Py.dict Position)) :
  exists out : list aspect,
    calculate_aspects positions1 positions2 = Returned out /\
    StronglySorted ascending out /\
    (forall out' : list aspect,
        calculate_aspects positions1 positions2 = Returned out' -> out' = out) /\
    sort_by aspect_key key_lt out = out.
Proof.
  rewrite calculate_aspects_returns.
  set (raw := flat_map (pair_matches positions1 positions2) _).
  exists (sort_by aspect_key key_lt raw).
  pose proof (sort_by_sorted aspect_key key_lt key_lt_asym raw) as Hsorted.
  split; [reflexivity|]. split; [|split].
  - apply Sorted_StronglySorted.
    + intros x y z. apply ascending_trans.
    + apply (Sorted_weaken (may_precede aspect_key key_lt)); [|exact Hsorted].
      intros x y. apply aspect_le_ascending.
  - intros out' H. injection H as <-. reflexivity.
  - apply sort_by_fixed. exact Hsorted.
Qed.

Lemma aspects_sorted_and_reproducible_witness :
  calculate_aspects chart_sample None = Returned aspects_sample /\
  map aspect_key aspects_sample =
    [(30%Z, "Moon", "Mars"); (90%Z, "Sun", "Moon"); (120%Z, "Sun", "Mars")] /\
  StronglySorted ascending aspects_sample.
Proof.
  assert (Hrun : calculate_aspects chart_sample None = Returned aspects_sample)
    by (vm_compute; reflexivity).
  split; [exact Hrun|]. split; [reflexivity|].
  destruct (aspects_sorted_and_reproducible chart_sample None)
    as (out & _ & Hsorted & Hsame & _).
  rewrite (Hsame aspects_sample Hrun). exact Hsorted.
Defined.


(** * Further properties of the resolver *)

Lemma classical_name_has_body (p : string) :
  In p PLANETS -> p <> "Chiron" ->
  exists b : pyephem_body, get_pyephem_body p = Some b.
Proof.
  intros Hin Hne. unfold PLANETS in Hin. simpl in Hin.
  repeat (destruct Hin as [<-|Hin]; [eexists; reflexivity|]).
  destruct Hin as [<-|[]]. congruence.
Qed.

(** X1. [get_pyephem_body] knows exactly the names of the roster other
    than Chiron, spelled as the roster spells them: for the roster
    [PLANETS] the [continue] branch of the loop is never taken. *)
Theorem pyephem_body_iff_classical_name (p : string) :
  (exists b : pyephem_body, get_pyephem_body p = Some b) <->
  (In p PLANETS /\ p <> "Chiron").
Proof.
  split.
  - intros (b & Hb). split.
    + exact (pyephem_name_in_roster p b Hb).
    + intros ->. discriminate.
  - intros (Hin & Hne). exact (classical_name_has_body p Hin Hne).
Qed.

Lemma pyephem_body_iff_classical_name_witness :
  (exists b : pyephem_body, get_pyephem_body "Venus" = Some b) /\
  get_pyephem_body "venus" = None /\
  get_pyephem_body "Chiron" = None.
Proof.
  split; [|split; reflexivity].
  apply (proj2 (pyephem_body_iff_classical_name "Venus")).
  split; [simpl; tauto|discriminate].
Defined.



Lemma get_some_in {V : Type} (d : Py.dict V) (k : string) (v : V) :
  Py.get d k = Some v -> In (k, v) d.
Proof.
  induction d as [|[k0 v0] d IH]; simpl; [discriminate|].
  destruct (String.eqb_spec k0 k) as [->|Hne].
  - intros H. injection H as <-. left. reflexivity.
  - intros H. right. exact (IH H).
Qed.

(** X3. For every roster name other than Chiron the marker follows the
    flag: [Rx_symbol] is "Rx" when [is_retrograde] is true and empty
    otherwise; for Sun and Moon it is always empty. *)
Theorem marker_matches_flag_outside_chiron
        (eph : Ephemeris) (person : person_data)
        (resolved : Py.dict Position) (p : string) (pos : Position) :
  calculate_positions eph person = Returned resolved ->
  p <> "Chiron" ->
  Py.get resolved p = Some pos ->
  Rx_symbol pos = (if is_retrograde pos then "Rx" else "") /\
  (p = "Sun" \/ p = "Moon" -> Rx_symbol pos = "" /\ is_retrograde pos = false).
Proof.
  intros Hrun Hne Hget. split.
  - apply (marker_follows_flag_except_chiron eph person p pos Hne).
    rewrite Hrun. exact (get_some_in _ _ _ Hget).
  - destruct (calculate_positions_returned eph person resolved Hrun) as [_ ->].
    intros [-> | ->]; cbn in Hget; injection Hget as <-; split; reflexivity.
Qed.

Lemma marker_matches_flag_outside_chiron_witness :
  calculate_positions eph_pluto_back person_sample
    = Returned (resolved_map eph_pluto_back person_sample) /\
  "Pluto" <> "Chiron" /\
  exists pos : Position,
    Py.get (resolved_map eph_pluto_back person_sample) "Pluto" = Some pos /\
    is_retrograde pos = true /\
    Rx_symbol pos = "Rx".
Proof.
  assert (Hrun : calculate_positions eph_pluto_back person_sample
                 = Returned (resolved_map eph_pluto_back person_sample))
    by (apply calculate_positions_closed; reflexivity).
  assert (Hne : "Pluto" <> "Chiron") by discriminate.
  split; [exact Hrun|]. split; [exact Hne|].
  eexists. split; [reflexivity|]. split; [reflexivity|].
  exact (proj1 (marker_matches_flag_outside_chiron eph_pluto_back person_sample
                  _ "Pluto" _ Hrun Hne eq_refl)).
Defined.

(** X4. The resolver uses a chart only through its latitude, its
    longitude and the instant [dt_local - timezone_offset] hours: charts
    that agree on these resolve to the same map, whatever their names
    and however local time and offset are split. *)
Theorem resolver_depends_on_utc_instant
        (eph : Ephemeris) (p1 p2 : person_data) :
  latitude p1 = latitude p2 ->
  longitude_of_birth p1 = longitude_of_birth p2 ->
  (dt_local p1 - 3600 * timezone_offset p1 =
   dt_local p2 - 3600 * timezone_offset p2)%Z ->
  calculate_positions eph p1 = calculate_positions eph p2.
Proof.
  intros Hlat Hlon Hutc.
  assert (Hnow : observer p1 = observer p2).
  { unfold observer, dt_utc. rewrite Hlat, Hlon, Hutc. reflexivity. }
  assert (Hlater : observer_future p1 = observer_future p2).
  { unfold observer_future, dt_utc. rewrite Hlat, Hlon, Hutc. reflexivity. }
  destruct (chiron_skyfield eph) as [f|] eqn:E.
  - rewrite !calculate_positions_loaded by congruence. reflexivity.
  - rewrite !calculate_positions_closed by exact E. f_equal.
    unfold resolved_map, luminary_entry, planet_entry, drifts_back,
      now_deg, later_deg.
    rewrite Hnow, Hlater. reflexivity.
Qed.

Lemma resolver_depends_on_utc_instant_witness :
  calculate_positions eph_pluto_back person_sample =
  calculate_positions eph_pluto_back person_utc.
Proof.
  apply resolver_depends_on_utc_instant; reflexivity.
Defined.

(** ** The one-hour difference *)

(** X5. The correction moves the raw difference by 0, +360 or -360; for
    two longitudes less than a full turn apart (so for any two values in
    [0, 360)) the corrected difference lies in [-180, 180]. *)
Theorem corrected_diff_within_half_turn (current future : Q) :
  (corrected_diff current future == future - current \/
   corrected_diff current future == future - current + 360 \/
   corrected_diff current future == future - current - 360) /\
  (- (360) <= future - current <= 360 ->
   - (180) <= corrected_diff current future <= 180).
Proof.
  unfold corrected_diff. cbv zeta. split.
  - case_lt (future - current) (-180); [|case_lt 180 (future - current)].
    + right. left. reflexivity.
    + right. right. reflexivity.
    + left. reflexivity.
  - intros H. split_comparisons.
Qed.

Lemma corrected_diff_within_half_turn_witness :
  - (360) <= 10 - 350 <= 360 /\
  corrected_diff 350 10 == 20 /\
  - (180) <= corrected_diff 350 10 <= 180.
Proof.
  assert (H : - (360) <= 10 - 350 <= 360) by lra.
  split; [exact H|]. split; [reflexivity|].
  exact (proj2 (corrected_diff_within_half_turn 350 10) H).
Defined.

(** X6. Exchanging the two instants negates the corrected difference. *)
Theorem corrected_diff_antisymmetric (a b : Q) :
  corrected_diff b a == - corrected_diff a b.
Proof.
  unfold corrected_diff. cbv zeta. split_comparisons.
Qed.

(** X7. The resolver and the engine measure the same arc: for two
    longitudes at most a full turn apart the absolute value of the
    corrected difference is the circular separation. *)
Theorem corrected_diff_magnitude_is_circular_diff (a b : Q) :
  - (360) <= b - a <= 360 ->
  Py.abs (corrected_diff a b) == circular_diff a b.
Proof.
  intros H. unfold corrected_diff, circular_diff, Py.min, Py.abs. cbv zeta.
  case_lt (b - a) (-180); [|case_lt 180 (b - a)]; split_comparisons.
Qed.

Lemma corrected_diff_magnitude_is_circular_diff_witness :
  - (360) <= 0.3 - 359.8 <= 360 /\
  Py.abs (corrected_diff 359.8 0.3) == circular_diff 359.8 0.3.
Proof.
  assert (H : - (360) <= 0.3 - 359.8 <= 360) by lra.
  split; [exact H|].
  exact (corrected_diff_magnitude_is_circular_diff 359.8 0.3 H).
Defined.

(** ** Rosters in another order *)










(** * Further properties of the aspect engine *)

Lemma match_targets_flat_map (orb_deg : Q) (p1 p2 : string) (diff : Q) :
  match_targets orb_deg p1 p2 diff [] =
  flat_map
    (fun item : Z * aspect_data =>
       if Py.le (Py.abs (diff - inject_Z (fst item))) orb_deg
       then [make_aspect orb_deg p1 p2 diff item] else [])
    ASPECTS.
Proof.
  unfold match_targets. generalize ASPECTS as items.
  assert (Hgen : forall items acc,
             fold_left
               (fun (acc : list aspect) (item : Z * aspect_data) =>
                  let (target_angle, data) := item in
                  let deviation := Py.abs (diff - inject_Z target_angle) in
                  if Py.le deviation orb_deg then
                    (acc ++ [ {| angle := target_angle;
                                 aspect_name := ad_name data;
                                 aspect_type := ad_type data;
                                 symbol := ad_symbol data;
                                 orb := orb_deg;
                                 actual_angle_diff := deviation;
                                 chart1_planet := p1;
                                 chart2_planet := p2;
                                 aspect_dimension :=
                                   if String.eqb (ad_type data) "Hard"
                                   then "H" else "S" |} ])%list
                  else acc) items acc
             = (acc ++ flat_map
                  (fun item : Z * aspect_data =>
                     if Py.le (Py.abs (diff - inject_Z (fst item))) orb_deg
                     then [make_aspect orb_deg p1 p2 diff item] else [])
                  items)%list).
  { induction items as [|[target data] items IH]; intros acc.
    - simpl. rewrite app_nil_r. reflexivity.
    - cbn [fold_left flat_map fst]. rewrite IH.
      destruct (Py.le (Py.abs (diff - inject_Z target)) orb_deg).
      + rewrite <- app_assoc. reflexivity.
      + reflexivity. }
  intros items. exact (Hgen items []).
Qed.

Lemma in_pair_matches (positions1 : Py.dict Position)
      (positions2 : option (Py.dict Position)) (pq : string * string)
      (x : aspect) :
  In x (pair_matches positions1 positions2 pq) <->
  exists item : Z * aspect_data,
    In item ASPECTS /\
    Py.le (Py.abs (pair_diff positions1 positions2 pq - inject_Z (fst item)))
          (engine_orb positions2) = true /\
    x = make_aspect (engine_orb positions2) (fst pq) (snd pq)
          (pair_diff positions1 positions2 pq) item.
Proof.
  unfold pair_matches. rewrite match_targets_flat_map, in_flat_map.
  fold (pair_diff positions1 positions2 pq).
  split.
  - intros (item & Hitem & Hx).
    destruct (Py.le (Py.abs (pair_diff positions1 positions2 pq
                             - inject_Z (fst item)))
                    (engine_orb positions2)) eqn:E.
    + destruct Hx as [<-|[]]. exists item. auto.
    + contradiction.
  - intros (item & Hitem & Hle & ->). exists item. split; [exact Hitem|].
    rewrite Hle. left. reflexivity.
Qed.

(** The aspects of the result are the matches of the candidate pairs. *)
Lemma in_calculate_aspects (positions1 : Py.dict Position)
      (positions2 : option (Py.dict Position)) (out : list aspect)
      (x : aspect) :
  calculate_aspects positions1 positions2 = Returned out ->
  (In x out <->
   exists (pq : string * string) (item : Z * aspect_data),
     In pq (candidate_pairs (engine_mode positions2) (planets1 positions1)
              (planets2 positions1 positions2)) /\
     In item ASPECTS /\
     Py.le (Py.abs (pair_diff positions1 positions2 pq - inject_Z (fst item)))
           (engine_orb positions2) = true /\
     x = make_aspect (engine_orb positions2) (fst pq) (snd pq)
           (pair_diff positions1 positions2 pq) item).
Proof.
  rewrite calculate_aspects_returns. intros H. injection H as <-.
  split.
  - intros Hin.
    apply (Permutation_in x (sort_by_perm aspect_key key_lt _)) in Hin.
    apply in_flat_map in Hin. destruct Hin as (pq & Hpq & Hx).
    apply in_pair_matches in Hx. destruct Hx as (item & Hitem & Hle & Hx).
    exists pq, item. auto.
  - intros (pq & item & Hpq & Hitem & Hle & Hx).
    apply (Permutation_in x (Permutation_sym (sort_by_perm aspect_key key_lt _))).
    apply in_flat_map. exists pq. split; [exact Hpq|].
    apply in_pair_matches. exists item. auto.
Qed.

Lemma candidate_pairs_members (m : mode) (ps1 ps2 : list string)
      (p q : string) :
  In (p, q) (candidate_pairs m ps1 ps2) -> In p ps1 /\ In q ps2.
Proof.
  unfold candidate_pairs. intros H.
  apply in_flat_map in H. destruct H as (ip1 & H1 & H).
  apply in_flat_map in H. destruct H as (jp2 & H2 & H).
  destruct (skipped m (fst ip1) (fst jp2)); [contradiction|].
  destruct H as [H|[]]. injection H as <- <-.
  split; eapply enumerate_from_member; eassumption.
Qed.

Lemma planets2_second_chart (positions1 : Py.dict Position)
      (positions2 : option (Py.dict Position)) :
  planets2 positions1 positions2 =
  Py.keys (second_chart positions1 positions2).
Proof. destruct positions2; reflexivity. Qed.

Lemma engine_orb_values (positions2 : option (Py.dict Position)) :
  0 < engine_orb positions2 /\ engine_orb positions2 <= 3.
Proof. destruct positions2; simpl; lra. Qed.

(** C5. In natal mode over a position map with N bodies the loop body
    does nothing for a pair of positions i >= j, and the engine's result
    is the sorted list of the matches of the pairs that get past this
    guard.  These are exactly N(N-1)/2 pairs: none occurs twice, in
    either order, none pairs a body with itself, and every two different
    bodies are among them; every aspect returned relates such a pair. *)
Theorem natal_pair_enumeration (chart : Py.dict Position) :
  NoDup (Py.keys chart) ->
  let pairs := candidate_pairs natal (Py.keys chart) (Py.keys chart) in
  let n := List.length chart in
  (forall (orb_deg : Q) (i j : nat) (p1 p2 : string) (acc : list aspect),
      (j <= i)%nat ->
      pair_body chart None orb_deg (i, p1) (j, p2) acc = Returned acc) /\
  calculate_aspects chart None =
    Returned
      (sort_by aspect_key key_lt (flat_map (pair_matches chart None) pairs)) /\
  List.length pairs = (n * (n - 1) / 2)%nat /\
  NoDup pairs /\
  (forall p q, In (p, q) pairs -> p <> q /\ ~ In (q, p) pairs) /\
  (forall p q, In p (Py.keys chart) -> In q (Py.keys chart) -> p <> q ->
               In (p, q) pairs \/ In (q, p) pairs) /\
  (forall (out : list aspect) (x : aspect),
      calculate_aspects chart None = Returned out ->
      In x out ->
      In (chart1_planet x, chart2_planet x) pairs /\
      chart1_planet x <> chart2_planet x).
Proof.
  intros Hnd. cbv zeta.
  split; [|split; [|split; [|split; [|split; [|split]]]]].
  - intros orb_deg i j p1 p2 acc Hji. unfold pair_body. cbn [engine_mode skipped].
    destruct (Nat.leb_spec j i); [reflexivity|lia].
  - exact (calculate_aspects_returns chart None).
  - rewrite candidate_pairs_natal.
    pose proof (upper_pairs_count (Py.keys chart)) as H.
    unfold Py.keys in H at 2 3. rewrite List.length_map in H.
    rewrite <- H, Nat.mul_comm, Nat.div_mul; [reflexivity|discriminate].
  - rewrite candidate_pairs_natal. exact (upper_pairs_NoDup _ Hnd).
  - rewrite candidate_pairs_natal.
    intros p q. exact (upper_pairs_ordered _ p q Hnd).
  - rewrite candidate_pairs_natal. intros p q. apply upper_pairs_complete.
  - intros out x Hrun Hx.
    apply (in_calculate_aspects chart None out x Hrun) in Hx.
    destruct Hx as ([p q] & item & Hpq & _ & _ & ->).
    cbn [make_aspect chart1_planet chart2_planet fst snd].
    split; [exact Hpq|].
    unfold engine_mode, planets1, planets2 in Hpq.
    rewrite candidate_pairs_natal in Hpq.
    exact (proj1 (upper_pairs_ordered _ p q Hnd Hpq)).
Qed.

Lemma natal_pair_enumeration_witness :
  NoDup (Py.keys chart_sample) /\
  candidate_pairs natal (Py.keys chart_sample) (Py.keys chart_sample)
    = [("Sun", "Moon"); ("Sun", "Mars"); ("Moon", "Mars")] /\
  List.length (candidate_pairs natal (Py.keys chart_sample) (Py.keys chart_sample))
    = (3 * (3 - 1) / 2)%nat /\
  calculate_aspects chart_sample None = Returned aspects_sample /\
  forall x : aspect,
    In x aspects_sample -> chart1_planet x <> chart2_planet x.
Proof.
  assert (Hnd : NoDup (Py.keys chart_sample)).
  { simpl. repeat constructor; simpl; intuition discriminate. }
  assert (Hrun : calculate_aspects chart_sample None = Returned aspects_sample)
    by (vm_compute; reflexivity).
  destruct (natal_pair_enumeration chart_sample Hnd)
    as (_ & _ & Hcount & _ & _ & _ & Hout).
  split; [exact Hnd|]. split; [reflexivity|]. split; [exact Hcount|].
  split; [exact Hrun|].
  intros x Hx. exact (proj2 (Hout aspects_sample x Hrun Hx)).
Defined.

(** X9. Every aspect of the result comes from a pair the loops reached:
    its two names are keys of the first and of the second chart, its orb
    is the major orb of the mode (3 natal, 1 synastry), and its deviation
    is the distance of the pair's circular separation from its angle, at
    most the orb. *)
Theorem aspect_soundness (positions1 : Py.dict Position)
        (positions2 : option (Py.dict Position)) (out : list aspect)
        (x : aspect) :
  calculate_aspects positions1 positions2 = Returned out ->
  In x out ->
  In (chart1_planet x, chart2_planet x)
     (candidate_pairs (engine_mode positions2) (planets1 positions1)
        (planets2 positions1 positions2)) /\
  In (chart1_planet x) (Py.keys positions1) /\
  In (chart2_planet x) (Py.keys (second_chart positions1 positions2)) /\
  orb x = (match positions2 with None => 3.0 | Some _ => 1.0 end) /\
  actual_angle_diff x =
    Py.abs (circular_diff
              (lon_of positions1 (chart1_planet x))
              (lon_of (second_chart positions1 positions2) (chart2_planet x))
            - inject_Z (angle x)) /\
  0 <= actual_angle_diff x <= orb x.
Proof.
  intros Hrun Hin.
  apply (in_calculate_aspects positions1 positions2 out x Hrun) in Hin.
  destruct Hin as ([p q] & item & Hpq & Hitem & Hle & ->).
  cbn [make_aspect chart1_planet chart2_planet orb actual_angle_diff angle
       fst snd].
  pose proof (candidate_pairs_members _ _ _ p q Hpq) as [Hp Hq].
  rewrite planets2_second_chart in Hq.
  split; [exact Hpq|]. split; [exact Hp|]. split; [exact Hq|].
  split; [reflexivity|]. split; [reflexivity|].
  split.
  - rewrite abs_Qabs. apply Qabs_nonneg.
  - apply Qle_bool_iff. exact Hle.
Qed.

Lemma aspect_soundness_witness :
  calculate_aspects chart_sample None = Returned aspects_sample /\
  exists x : aspect,
    In x aspects_sample /\
    angle x = 90%Z /\
    chart1_planet x = "Sun" /\ chart2_planet x = "Moon" /\
    In (chart1_planet x) (Py.keys chart_sample) /\
    0 <= actual_angle_diff x <= orb x.
Proof.
  assert (Hrun : calculate_aspects chart_sample None = Returned aspects_sample)
    by (vm_compute; reflexivity).
  split; [exact Hrun|].
  assert (Hx : exists x, In x aspects_sample /\ angle x = 90%Z /\
                         chart1_planet x = "Sun" /\ chart2_planet x = "Moon").
  { eexists. split; [right; left; reflexivity|].
    repeat split; reflexivity. }
  destruct Hx as (x & Hin & Ha & H1 & H2).
  exists x. split; [exact Hin|]. split; [exact Ha|].
  split; [exact H1|]. split; [exact H2|].
  destruct (aspect_soundness chart_sample None aspects_sample x Hrun Hin)
    as (_ & Hk & _ & _ & _ & Hdev).
  split; [exact Hk|exact Hdev].
Defined.

Lemma aspects_rows (item : Z * aspect_data) :
  In item ASPECTS ->
  In (fst item) [0; 30; 60; 90; 120; 150; 180]%Z /\
  (if String.eqb (ad_type (snd item)) "Hard" then "H" else "S") =
  (if (fst item mod 90 =? 0)%Z then "H" else "S").
Proof.
  unfold ASPECTS. intros H.
  repeat (destruct H as [<-|H]; [split; [simpl; tauto|reflexivity]|]).
  contradiction.
Qed.

(** A row of [ASPECTS] is known by its angle. *)
Lemma aspects_rows_unique (item item' : Z * aspect_data) :
  In item ASPECTS -> In item' ASPECTS -> fst item = fst item' -> item = item'.
Proof.
  unfold ASPECTS. intros H H' E.
  repeat (destruct H as [<-|H]);
    try contradiction;
    repeat (destruct H' as [<-|H']);
    try contradiction; try reflexivity; discriminate.
Qed.

(** X10. The name, type and symbol of every aspect of the result are
    those [ASPECTS] gives for its angle, one of 0, 30, ..., 180; its
    dimension is "H" for the multiples of 90 (conjunction, square,
    opposition) and "S" for the others. *)
Theorem aspect_fields_from_table (positions1 : Py.dict Position)
        (positions2 : option (Py.dict Position)) (out : list aspect)
        (x : aspect) :
  calculate_aspects positions1 positions2 = Returned out ->
  In x out ->
  In (angle x,
      {| ad_name := aspect_name x;
         ad_type := aspect_type x;
         ad_symbol := symbol x |}) ASPECTS /\
  In (angle x) [0; 30; 60; 90; 120; 150; 180]%Z /\
  aspect_dimension x = (if (angle x mod 90 =? 0)%Z then "H" else "S").
Proof.
  intros Hrun Hin.
  apply (in_calculate_aspects positions1 positions2 out x Hrun) in Hin.
  destruct Hin as (pq & [target data] & _ & Hitem & _ & ->).
  cbn [make_aspect angle aspect_name aspect_type symbol aspect_dimension
       fst snd].
  destruct (aspects_rows (target, data) Hitem) as [Hangle Hdim].
  split; [|split; [exact Hangle|exact Hdim]].
  destruct data. exact Hitem.
Qed.

Lemma aspect_fields_from_table_witness :
  calculate_aspects chart_sample None = Returned aspects_sample /\
  exists x : aspect,
    In x aspects_sample /\
    angle x = 120%Z /\ aspect_name x = "Trine" /\ aspect_dimension x = "S".
Proof.
  assert (Hrun : calculate_aspects chart_sample None = Returned aspects_sample)
    by (vm_compute; reflexivity).
  split; [exact Hrun|].
  assert (Hx : exists x, In x aspects_sample /\ angle x = 120%Z /\
                         aspect_name x = "Trine").
  { eexists. split; [right; right; left; reflexivity|].
    split; reflexivity. }
  destruct Hx as (x & Hin & Ha & Hn).
  exists x. split; [exact Hin|]. split; [exact Ha|]. split; [exact Hn|].
  destruct (aspect_fields_from_table chart_sample None aspects_sample x Hrun Hin)
    as (_ & _ & Hdim).
  rewrite Hdim, Ha. reflexivity.
Defined.

(** X11. No match is lost: for every pair the loops reach and every
    angle of [ASPECTS] whose distance from the pair's circular separation
    is at most the orb (the bound included), the result holds the aspect
    of that pair at that angle. *)
Theorem aspect_completeness (positions1 : Py.dict Position)
        (positions2 : option (Py.dict Position)) (out : list aspect)
        (p q : string) (target : Z) (data : aspect_data) :
  calculate_aspects positions1 positions2 = Returned out ->
  In (p, q) (candidate_pairs (engine_mode positions2) (planets1 positions1)
               (planets2 positions1 positions2)) ->
  In (target, data) ASPECTS ->
  Py.abs (circular_diff
            (lon_of positions1 p)
            (lon_of (second_chart positions1 positions2) q)
          - inject_Z target)
  <= (match positions2 with None => 3.0 | Some _ => 1.0 end) ->
  exists x : aspect,
    In x out /\
    angle x = target /\ chart1_planet x = p /\ chart2_planet x = q /\
    aspect_name x = ad_name data.
Proof.
  intros Hrun Hpq Hitem Hle.
  exists (make_aspect (engine_orb positions2) p q
            (pair_diff positions1 positions2 (p, q)) (target, data)).
  split; [|repeat split; reflexivity].
  apply (in_calculate_aspects positions1 positions2 out _ Hrun).
  exists (p, q), (target, data).
  split; [exact Hpq|]. split; [exact Hitem|]. split; [|reflexivity].
  apply Qle_bool_iff. exact Hle.
Qed.

Lemma aspect_completeness_witness :
  calculate_aspects chart_sample None = Returned aspects_sample /\
  In ("Sun", "Mars")
     (candidate_pairs natal (Py.keys chart_sample) (Py.keys chart_sample)) /\
  exists x : aspect,
    In x aspects_sample /\
    angle x = 120%Z /\ chart1_planet x = "Sun" /\ chart2_planet x = "Mars" /\
    aspect_name x = "Trine".
Proof.
  assert (Hrun : calculate_aspects chart_sample None = Returned aspects_sample)
    by (vm_compute; reflexivity).
  assert (Hpq : In ("Sun", "Mars")
                   (candidate_pairs natal (Py.keys chart_sample)
                      (Py.keys chart_sample)))
    by (right; left; reflexivity).
  split; [exact Hrun|]. split; [exact Hpq|].
  apply (aspect_completeness chart_sample None aspects_sample "Sun" "Mars"
           120%Z {| ad_name := "Trine"; ad_type := "Soft"; ad_symbol := "△" |}
           Hrun Hpq).
  - simpl. tauto.
  - vm_compute. discriminate.
Defined.

(** X12. With the orbs of [ORBS] a pair of names gets at most one aspect:
    two aspects of the result with the same two names are the same
    record. *)
Theorem one_aspect_per_pair (positions1 : Py.dict Position)
        (positions2 : option (Py.dict Position)) (out : list aspect)
        (x y : aspect) :
  calculate_aspects positions1 positions2 = Returned out ->
  In x out -> In y out ->
  chart1_planet x = chart1_planet y ->
  chart2_planet x = chart2_planet y ->
  x = y.
Proof.
  intros Hrun Hx Hy H1 H2.
  apply (in_calculate_aspects positions1 positions2 out x Hrun) in Hx.
  apply (in_calculate_aspects positions1 positions2 out y Hrun) in Hy.
  destruct Hx as ([p q] & item & _ & Hitem & Hle & ->).
  destruct Hy as ([p' q'] & item' & _ & Hitem' & Hle' & ->).
  cbn [make_aspect chart1_planet chart2_planet fst snd] in H1, H2.
  subst p' q'.
  assert (E : item = item'); [|rewrite E; reflexivity].
  apply aspects_rows_unique; [exact Hitem|exact Hitem'|].
  apply Qle_bool_iff in Hle, Hle'.
  rewrite abs_Qabs in Hle, Hle'.
  apply Qabs_Qle_condition in Hle, Hle'.
  pose proof (engine_orb_values positions2) as [_ Horb].
  destruct (aspects_rows item Hitem) as [Ha _].
  destruct (aspects_rows item' Hitem') as [Ha' _].
  set (d := pair_diff positions1 positions2 (p, q)) in *.
  simpl in Ha, Ha'.
  repeat (destruct Ha as [Ha|Ha]; [rewrite <- Ha in *|]); try contradiction;
    repeat (destruct Ha' as [Ha'|Ha']; [rewrite <- Ha' in *|]);
    try contradiction; try reflexivity;
    exfalso; unfold inject_Z in *; lra.
Qed.

Lemma one_aspect_per_pair_witness :
  calculate_aspects chart_sample None = Returned aspects_sample /\
  forall x : aspect,
    In x aspects_sample ->
    chart1_planet x = "Sun" -> chart2_planet x = "Moon" -> angle x = 90%Z.
Proof.
  assert (Hrun : calculate_aspects chart_sample None = Returned aspects_sample)
    by (vm_compute; reflexivity).
  split; [exact Hrun|].
  assert (Hy : exists y, In y aspects_sample /\ angle y = 90%Z /\
                         chart1_planet y = "Sun" /\ chart2_planet y = "Moon").
  { eexists. split; [right; left; reflexivity|]. repeat split; reflexivity. }
  destruct Hy as (y & Hin & Ha & H1 & H2).
  intros x Hx Hx1 Hx2.
  rewrite (one_aspect_per_pair chart_sample None aspects_sample x y Hrun Hx Hin)
    by congruence.
  exact Ha.
Defined.

(** X13. In natal mode over a chart (a dictionary: no key twice) no
    aspect relates a body to itself, and a pair of bodies never appears
    in both orders. *)
Theorem natal_aspects_relate_distinct_bodies (chart : Py.dict Position)
        (out : list aspect) (x : aspect) :
  NoDup (Py.keys chart) ->
  calculate_aspects chart None = Returned out ->
  In x out ->
  chart1_planet x <> chart2_planet x /\
  forall y : aspect,
    In y out ->
    ~ (chart1_planet y = chart2_planet x /\ chart2_planet y = chart1_planet x).
Proof.
  intros Hnd Hrun Hx.
  apply (in_calculate_aspects chart None out x Hrun) in Hx.
  destruct Hx as ([p q] & item & Hpq & _ & _ & ->).
  cbn [make_aspect chart1_planet chart2_planet fst snd].
  unfold engine_mode, planets1, planets2 in Hpq.
  rewrite candidate_pairs_natal in Hpq.
  destruct (upper_pairs_ordered _ p q Hnd Hpq) as [Hne Hback].
  split; [exact Hne|].
  intros y Hy [E1 E2].
  apply (in_calculate_aspects chart None out y Hrun) in Hy.
  destruct Hy as ([p' q'] & item' & Hpq' & _ & _ & ->).
  cbn [make_aspect chart1_planet chart2_planet fst snd] in E1, E2.
  subst p' q'.
  unfold engine_mode, planets1, planets2 in Hpq'.
  rewrite candidate_pairs_natal in Hpq'. exact (Hback Hpq').
Qed.

Lemma natal_aspects_relate_distinct_bodies_witness :
  NoDup (Py.keys chart_sample) /\
  calculate_aspects chart_sample None = Returned aspects_sample /\
  forall x : aspect, In x aspects_sample -> chart1_planet x <> chart2_planet x.
Proof.
  assert (Hnd : NoDup (Py.keys chart_sample)).
  { simpl. repeat constructor; simpl; intuition discriminate. }
  assert (Hrun : calculate_aspects chart_sample None = Returned aspects_sample)
    by (vm_compute; reflexivity).
  split; [exact Hnd|]. split; [exact Hrun|].
  intros x Hx.
  exact (proj1 (natal_aspects_relate_distinct_bodies chart_sample
                  aspects_sample x Hnd Hrun Hx)).
Defined.

Lemma flat_map_nil {A B : Type} (l : list A) :
  flat_map (fun _ : A => @nil B) l = [].
Proof. induction l as [|a l IH]; simpl; [reflexivity|exact IH]. Qed.

(** X14. Charts that give the loops no pair give the empty list and no
    error: an empty first chart, an empty second chart (which the engine
    takes for a missing one when it looks a longitude up), or a single
    body in natal mode. *)
Theorem no_pairs_no_aspects (positions1 : Py.dict Position)
        (positions2 : option (Py.dict Position)) :
  positions1 = [] \/
  positions2 = Some [] \/
  (positions2 = None /\ List.length positions1 = 1%nat) ->
  calculate_aspects positions1 positions2 = Returned [].
Proof.
  intros H. rewrite calculate_aspects_returns.
  assert (Hnone : candidate_pairs (engine_mode positions2) (planets1 positions1)
                    (planets2 positions1 positions2) = []).
  { destruct H as [->|[->|[-> Hone]]].
    - reflexivity.
    - unfold candidate_pairs. cbn [planets2 Py.keys map Py.enumerate
                                     Py.enumerate_from flat_map].
      apply flat_map_nil.
    - destruct positions1 as [|[k v] [|e rest]]; try discriminate.
      reflexivity. }
  rewrite Hnone. reflexivity.
Qed.

Lemma no_pairs_no_aspects_witness :
  calculate_aspects chart_sample (Some []) = Returned [] /\
  calculate_aspects [("Sun", at_deg 10.0)] None = Returned [].
Proof.
  split.
  - apply no_pairs_no_aspects. right. left. reflexivity.
  - apply no_pairs_no_aspects. right. right. split; reflexivity.
Defined.

Lemma circular_diff_same (a b : Q) : a == b -> circular_diff a b == 0.
Proof.
  intros E. unfold circular_diff, Py.min, Py.abs. cbv zeta. split_comparisons.
Qed.

(** X15. In synastry mode the loop body skips no pair, and the engine's
    result is the sorted list of the matches over the whole cross
    product of the two charts' names, N times M pairs in row order.  A
    name paired with the same name of the other chart is among them:
    when the two charts hold it at the same longitude the result has
    its conjunction. *)
Theorem synastry_pair_enumeration (positions1 other : Py.dict Position) :
  let pairs := list_prod (Py.keys positions1) (Py.keys other) in
  calculate_aspects positions1 (Some other) =
    Returned
      (sort_by aspect_key key_lt
         (flat_map (pair_matches positions1 (Some other)) pairs)) /\
  List.length pairs = (List.length positions1 * List.length other)%nat /\
  (forall p q : string,
      In (p, q) pairs <-> In p (Py.keys positions1) /\ In q (Py.keys other)) /\
  (forall (out : list aspect) (p : string),
      calculate_aspects positions1 (Some other) = Returned out ->
      In p (Py.keys positions1) -> In p (Py.keys other) ->
      lon_of positions1 p == lon_of other p ->
      exists x : aspect,
        In x out /\ angle x = 0%Z /\
        chart1_planet x = p /\ chart2_planet x = p).
Proof.
  cbv zeta.
  assert (Hpairs : candidate_pairs (engine_mode (Some other))
                     (planets1 positions1) (planets2 positions1 (Some other))
                   = list_prod (Py.keys positions1) (Py.keys other)).
  { unfold engine_mode, planets1, planets2. apply candidate_pairs_synastry. }
  split; [|split; [|split]].
  - rewrite calculate_aspects_returns, Hpairs. reflexivity.
  - rewrite List.length_prod. unfold Py.keys. rewrite !List.length_map.
    reflexivity.
  - intros p q. apply in_prod_iff.
  - intros out p Hrun H1 H2 Hsame.
    exists (make_aspect (engine_orb (Some other)) p p
              (pair_diff positions1 (Some other) (p, p))
              (0%Z, {| ad_name := "Conjunction"; ad_type := "Hard";
                       ad_symbol := "☌" |})).
    split; [|repeat split; reflexivity].
    apply (in_calculate_aspects positions1 (Some other) out _ Hrun).
    eexists (p, p), _.
    split; [|split; [left; reflexivity|split; [|reflexivity]]].
    + rewrite Hpairs. apply in_prod; assumption.
    + cbn [fst engine_orb].
      apply Qle_bool_iff. rewrite abs_Qabs. apply Qabs_Qle_condition.
      assert (Hzero : pair_diff positions1 (Some other) (p, p) == 0).
      { unfold pair_diff. cbn [fst snd second_chart].
        exact (circular_diff_same _ _ Hsame). }
      unfold inject_Z. rewrite Hzero. split; lra.
Qed.

Lemma synastry_pair_enumeration_witness :
  In "Mars" (Py.keys chart_sample) /\ In "Mars" (Py.keys chart_sample_rx) /\
  lon_of chart_sample "Mars" == lon_of chart_sample_rx "Mars" /\
  exists (out : list aspect) (x : aspect),
    calculate_aspects chart_sample (Some chart_sample_rx) = Returned out /\
    In x out /\ angle x = 0%Z /\
    chart1_planet x = "Mars" /\ chart2_planet x = "Mars".
Proof.
  assert (H1 : In "Mars" (Py.keys chart_sample)) by (simpl; tauto).
  assert (H2 : In "Mars" (Py.keys chart_sample_rx)) by (simpl; tauto).
  assert (Hsame : lon_of chart_sample "Mars" == lon_of chart_sample_rx "Mars")
    by reflexivity.
  split; [exact H1|]. split; [exact H2|]. split; [exact Hsame|].
  destruct (synastry_pair_enumeration chart_sample chart_sample_rx)
    as (Hrun & _ & _ & Hconj).
  destruct (Hconj _ "Mars" Hrun H1 H2 Hsame) as (x & Hx).
  eexists _, x. split; [exact Hrun|exact Hx].
Defined.




(** ** What the engine reads *)

Lemma keys_of_longitudes (d : Py.dict Position) :
  Py.keys d = map fst (longitudes d).
Proof.
  unfold Py.keys, longitudes. rewrite map_map. reflexivity.
Qed.

Lemma lon_of_longitudes (d : Py.dict Position) (k : string) :
  lon_of d k = match Py.get (longitudes d) k with
               | Some deg => deg
               | None => 0
               end.
Proof.
  unfold lon_of. induction d as [|[k0 v0] d IH]; cbn [Py.get longitudes map fst snd].
  - reflexivity.
  - destruct (String.eqb k0 k); [reflexivity|exact IH].
Qed.

Lemma same_longitudes_second_chart
      (positions1 positions1' : Py.dict Position)
      (positions2 positions2' : option (Py.dict Position)) :
  longitudes positions1 = longitudes positions1' ->
  option_map longitudes positions2 = option_map longitudes positions2' ->
  longitudes (second_chart positions1 positions2) =
  longitudes (second_chart positions1' positions2') /\
  engine_mode positions2 = engine_mode positions2' /\
  engine_orb positions2 = engine_orb positions2'.
Proof.
  intros H1 H2.
  destruct positions2 as [d|], positions2' as [d'|]; try discriminate;
    cbn [second_chart engine_mode engine_orb].
  - injection H2 as H2. auto.
  - auto.
Qed.

(** X17. The engine reads nothing of a chart but its names, their order
    and their longitudes: charts that agree on these give the same
    aspects, whatever their retrograde flags and markers say. *)
Theorem aspects_depend_on_longitudes_only
        (positions1 positions1' : Py.dict Position)
        (positions2 positions2' : option (Py.dict Position)) :
  longitudes positions1 = longitudes positions1' ->
  option_map longitudes positions2 = option_map longitudes positions2' ->
  calculate_aspects positions1 positions2 =
  calculate_aspects positions1' positions2'.
Proof.
  intros H1 H2.
  destruct (same_longitudes_second_chart _ _ _ _ H1 H2) as (Hs & Hm & Ho).
  rewrite !calculate_aspects_returns. f_equal. f_equal.
  rewrite !planets2_second_chart. unfold planets1.
  rewrite !keys_of_longitudes, H1, Hs, Hm.
  apply flat_map_ext. intros [p q].
  unfold pair_matches. cbn [fst snd].
  rewrite !lon_of_longitudes, H1, Hs, Ho. reflexivity.
Qed.

Lemma aspects_depend_on_longitudes_only_witness :
  longitudes chart_sample = longitudes chart_sample_rx /\
  calculate_aspects chart_sample_rx (Some chart_sample) =
  calculate_aspects chart_sample (Some chart_sample_rx).
Proof.
  assert (H : longitudes chart_sample = longitudes chart_sample_rx)
    by reflexivity.
  split; [exact H|].
  apply aspects_depend_on_longitudes_only.
  - symmetry. exact H.
  - cbn [option_map]. rewrite H. reflexivity.
Defined.

(** ** No aspect twice *)

Lemma NoDup_flat_map {A B : Type} (f : A -> list B) (l : list A) :
  NoDup l ->
  (forall a, In a l -> NoDup (f a)) ->
  (forall a b x, In a l -> In b l -> In x (f a) -> In x (f b) -> a = b) ->
  NoDup (flat_map f l).
Proof.
  induction l as [|a l IH]; intros Hnd Heach Hapart; simpl.
  - constructor.
  - inversion Hnd as [|a' l' Ha Hl]; subst.
    apply NoDup_app.
    + apply Heach. left. reflexivity.
    + apply IH; [exact Hl| |].
      * intros b Hb. apply Heach. right. exact Hb.
      * intros b c x Hb Hc. apply Hapart; right; assumption.
    + intros x Hx Hrest. apply in_flat_map in Hrest.
      destruct Hrest as (b & Hb & Hxb).
      assert (E : a = b).
      { apply (Hapart a b x); [left; reflexivity|right; exact Hb| |];
          assumption. }
      subst b. exact (Ha Hb).
Qed.

Lemma NoDup_list_prod {A B : Type} (l : list A) (l' : list B) :
  NoDup l -> NoDup l' -> NoDup (list_prod l l').
Proof.
  intros Hl Hl'. rewrite list_prod_as_flat_map.
  apply NoDup_flat_map; [exact Hl| |].
  - intros a _. apply NoDup_map_NoDup_ForallPairs; [|exact Hl'].
    intros x y _ _ E. injection E as ->. reflexivity.
  - intros a b [x y] _ _ Ha Hb.
    apply in_map_iff in Ha. destruct Ha as (u & Eu & _).
    apply in_map_iff in Hb. destruct Hb as (v & Ev & _).
    congruence.
Qed.

Lemma candidate_pairs_NoDup (positions1 : Py.dict Position)
      (positions2 : option (Py.dict Position)) :
  NoDup (Py.keys positions1) ->
  NoDup (Py.keys (second_chart positions1 positions2)) ->
  NoDup (candidate_pairs (engine_mode positions2) (planets1 positions1)
           (planets2 positions1 positions2)).
Proof.
  intros H1 H2. unfold engine_mode, planets1, planets2.
  destruct positions2 as [d|]; cbn [second_chart] in H2.
  - rewrite candidate_pairs_synastry. exact (NoDup_list_prod _ _ H1 H2).
  - rewrite candidate_pairs_natal. exact (upper_pairs_NoDup _ H1).
Qed.

Lemma ASPECTS_NoDup : NoDup ASPECTS.
Proof.
  unfold ASPECTS. repeat constructor; simpl; intuition discriminate.
Qed.

Lemma pair_matches_NoDup (positions1 : Py.dict Position)
      (positions2 : option (Py.dict Position)) (pq : string * string) :
  NoDup (pair_matches positions1 positions2 pq).
Proof.
  unfold pair_matches. rewrite match_targets_flat_map.
  apply NoDup_flat_map; [exact ASPECTS_NoDup| |].
  - intros item _. destruct (Py.le _ _); repeat constructor. intros [].
  - intros a b x Ha Hb Hxa Hxb.
    destruct (Py.le (Py.abs (_ - inject_Z (fst a))) _); [|contradiction].
    destruct (Py.le (Py.abs (_ - inject_Z (fst b))) _); [|contradiction].
    destruct Hxa as [<-|[]]. destruct Hxb as [E|[]].
    apply aspects_rows_unique; [exact Ha|exact Hb|].
    apply (f_equal angle) in E. symmetry. exact E.
Qed.

(** X18. Over charts that are dictionaries (no key twice) the result
    holds no aspect twice, and no two of its aspects share the sort key
    (angle, chart-1 name, chart-2 name): the order of the result is
    strict. *)
Theorem aspects_have_distinct_keys (positions1 : Py.dict Position)
        (positions2 : option (Py.dict Position)) (out : list aspect) :
  NoDup (Py.keys positions1) ->
  NoDup (Py.keys (second_chart positions1 positions2)) ->
  calculate_aspects positions1 positions2 = Returned out ->
  NoDup (map aspect_key out) /\ NoDup out.
Proof.
  intros H1 H2 Hrun.
  assert (Hkeys : NoDup (map aspect_key out)); [|split;
    [exact Hkeys|exact (NoDup_map_inv aspect_key out Hkeys)]].
  pose proof Hrun as Hout. rewrite calculate_aspects_returns in Hout.
  injection Hout as Hout. rewrite <- Hout.
  set (raw := flat_map (pair_matches positions1 positions2) _).
  apply (Permutation_NoDup
           (Permutation_map aspect_key
              (Permutation_sym (sort_by_perm aspect_key key_lt raw)))).
  apply NoDup_map_NoDup_ForallPairs.
  - intros x y Hx Hy E. unfold raw in Hx, Hy.
    apply in_flat_map in Hx, Hy.
    destruct Hx as ([p q] & _ & Hx). destruct Hy as ([p' q'] & _ & Hy).
    apply in_pair_matches in Hx, Hy.
    destruct Hx as (item & Hitem & _ & ->).
    destruct Hy as (item' & Hitem' & _ & ->).
    unfold aspect_key in E.
    cbn [make_aspect angle chart1_planet chart2_planet fst snd] in E.
    injection E as Ea Ep Eq. subst p' q'.
    rewrite (aspects_rows_unique item item' Hitem Hitem' Ea). reflexivity.
  - unfold raw. apply NoDup_flat_map.
    + exact (candidate_pairs_NoDup positions1 positions2 H1 H2).
    + intros pq _. apply pair_matches_NoDup.
    + intros [p q] [p' q'] x _ _ Hx Hy.
      apply in_pair_matches in Hx, Hy.
      destruct Hx as (item & _ & _ & ->).
      destruct Hy as (item' & _ & _ & E).
      pose proof (f_equal chart1_planet E) as E1.
      pose proof (f_equal chart2_planet E) as E2.
      cbn [make_aspect chart1_planet chart2_planet fst snd] in E1, E2.
      congruence.
Qed.

Lemma aspects_have_distinct_keys_witness :
  NoDup (Py.keys chart_sample) /\
  calculate_aspects chart_sample None = Returned aspects_sample /\
  NoDup (map aspect_key aspects_sample).
Proof.
  assert (Hnd : NoDup (Py.keys chart_sample)).
  { simpl. repeat constructor; simpl; intuition discriminate. }
  assert (Hrun : calculate_aspects chart_sample None = Returned aspects_sample)
    by (vm_compute; reflexivity).
  split; [exact Hnd|]. split; [exact Hrun|].
  exact (proj1 (aspects_have_distinct_keys chart_sample None aspects_sample
                  Hnd Hnd Hrun)).
Defined.

(** ** Order and symmetry of the pairs *)

Lemma upper_pairs_positions (xs : list string) (p q : string) :
  In (p, q) (upper_pairs xs) ->
  exists l1 l2 l3 : list string, xs = (l1 ++ p :: l2 ++ q :: l3)%list.
Proof.
  induction xs as [|x xs IH]; simpl; [contradiction|].
  intros H. apply in_app_or in H. destruct H as [H|H].
  - apply in_map_iff in H. destruct H as (y & Hy & Hin).
    injection Hy as <- <-.
    apply in_split in Hin. destruct Hin as (l2 & l3 & ->).
    exists [], l2, l3. reflexivity.
  - destruct (IH H) as (l1 & l2 & l3 & ->).
    exists (x :: l1), l2, l3. reflexivity.
Qed.

(** X19. In natal mode the chart-1 name of an aspect stands before its
    chart-2 name in the chart's own order of keys. *)
Theorem natal_aspect_follows_chart_order (chart : Py.dict Position)
        (out : list aspect) (x : aspect) :
  calculate_aspects chart None = Returned out ->
  In x out ->
  exists l1 l2 l3 : list string,
    Py.keys chart = (l1 ++ chart1_planet x :: l2 ++ chart2_planet x :: l3)%list.
Proof.
  intros Hrun Hx.
  apply (in_calculate_aspects chart None out x Hrun) in Hx.
  destruct Hx as ([p q] & item & Hpq & _ & _ & ->).
  cbn [make_aspect chart1_planet chart2_planet fst snd].
  unfold engine_mode, planets1, planets2 in Hpq.
  rewrite candidate_pairs_natal in Hpq.
  exact (upper_pairs_positions _ p q Hpq).
Qed.

Lemma natal_aspect_follows_chart_order_witness :
  calculate_aspects chart_sample None = Returned aspects_sample /\
  forall x : aspect, In x aspects_sample -> chart2_planet x <> "Sun".
Proof.
  assert (Hrun : calculate_aspects chart_sample None = Returned aspects_sample)
    by (vm_compute; reflexivity).
  split; [exact Hrun|].
  intros x Hx E.
  destruct (natal_aspect_follows_chart_order chart_sample aspects_sample x
              Hrun Hx) as (l1 & l2 & l3 & Hsplit).
  rewrite E in Hsplit. cbn in Hsplit.
  destruct l1 as [|a l1]; cbn in Hsplit.
  - injection Hsplit as _ Hrest.
    assert (Hin : In "Sun" ["Moon"; "Mars"])
      by (rewrite Hrest; apply in_or_app; right; left; reflexivity).
    simpl in Hin. intuition discriminate.
  - injection Hsplit as _ Hrest.
    assert (Hin : In "Sun" ["Moon"; "Mars"]).
    { rewrite Hrest. apply in_or_app. right. right.
      apply in_or_app. right. left. reflexivity. }
    simpl in Hin. intuition discriminate.
Defined.

Lemma le_proper (x y bound : Q) :
  x == y -> Py.le x bound = true -> Py.le y bound = true.
Proof.
  unfold Py.le. intros E H. apply Qle_bool_iff. apply Qle_bool_iff in H.
  rewrite <- E. exact H.
Qed.

Lemma abs_proper (x y : Q) : x == y -> Py.abs x == Py.abs y.
Proof. intros E. rewrite !abs_Qabs, E. reflexivity. Qed.

(** X20. Synastry does not depend on which chart comes first: every
    aspect of (A, B) has its mirror in the result of (B, A), the same
    angle and deviation with the two names exchanged. *)
Theorem synastry_mirror (chart_a chart_b : Py.dict Position)
        (out out' : list aspect) (x : aspect) :
  calculate_aspects chart_a (Some chart_b) = Returned out ->
  calculate_aspects chart_b (Some chart_a) = Returned out' ->
  In x out ->
  exists y : aspect,
    In y out' /\
    angle y = angle x /\
    aspect_name y = aspect_name x /\
    chart1_planet y = chart2_planet x /\
    chart2_planet y = chart1_planet x /\
    actual_angle_diff y == actual_angle_diff x.
Proof.
  intros Hrun Hrun' Hx.
  apply (in_calculate_aspects chart_a (Some chart_b) out x Hrun) in Hx.
  destruct Hx as ([p q] & item & Hpq & Hitem & Hle & ->).
  assert (Hdiff : pair_diff chart_b (Some chart_a) (q, p)
                  == pair_diff chart_a (Some chart_b) (p, q)).
  { unfold pair_diff. cbn [fst snd second_chart]. apply circular_diff_sym. }
  assert (Hdev : Py.abs (pair_diff chart_a (Some chart_b) (p, q)
                         - inject_Z (fst item))
                 == Py.abs (pair_diff chart_b (Some chart_a) (q, p)
                            - inject_Z (fst item))).
  { apply abs_proper. rewrite Hdiff. reflexivity. }
  exists (make_aspect (engine_orb (Some chart_a)) q p
            (pair_diff chart_b (Some chart_a) (q, p)) item).
  split.
  - apply (in_calculate_aspects chart_b (Some chart_a) out' _ Hrun').
    exists (q, p), item.
    split; [|split; [exact Hitem|split; [|reflexivity]]].
    + unfold engine_mode, planets1, planets2 in *.
      rewrite candidate_pairs_synastry in *.
      apply in_prod_iff in Hpq. apply in_prod_iff. tauto.
    + exact (le_proper _ _ _ Hdev Hle).
  - cbn [make_aspect angle aspect_name chart1_planet chart2_planet
         actual_angle_diff fst snd].
    repeat (split; [reflexivity|]). symmetry. exact Hdev.
Qed.

Lemma synastry_mirror_witness :
  exists (out out' : list aspect) (x y : aspect),
    calculate_aspects chart_sample (Some chart_sample_rx) = Returned out /\
    calculate_aspects chart_sample_rx (Some chart_sample) = Returned out' /\
    In x out /\ chart1_planet x = "Sun" /\ chart2_planet x = "Mars" /\
    In y out' /\ chart1_planet y = "Mars" /\ chart2_planet y = "Sun" /\
    angle y = angle x.
Proof.
  destruct (calculate_aspects chart_sample (Some chart_sample_rx))
    as [out|e] eqn:Hrun; [|vm_compute in Hrun; discriminate].
  destruct (calculate_aspects chart_sample_rx (Some chart_sample))
    as [out'|e] eqn:Hrun'; [|vm_compute in Hrun'; discriminate].
  assert (Hx : exists x, In x out /\ chart1_planet x = "Sun" /\
                         chart2_planet x = "Mars").
  { vm_compute in Hrun. injection Hrun as <-.
    eexists. split; [do 8 right; left; reflexivity|].
    split; reflexivity. }
  destruct Hx as (x & Hin & H1 & H2).
  destruct (synastry_mirror chart_sample chart_sample_rx out out' x
              Hrun Hrun' Hin) as (y & Hy & Ha & _ & Hy1 & Hy2 & _).
  exists out, out', x, y.
  repeat (split; [first [reflexivity|assumption|congruence]|]).
  exact Ha.
Defined.

(** X21. The engine takes its longitudes as they come: the separation it
    computes is negative exactly when the two values are more than a
    full turn apart. *)
Theorem circular_diff_negative_iff_beyond_full_turn (a b : Q) :
  circular_diff a b < 0 <-> 360 < Qabs (a - b).
Proof.
  rewrite <- (abs_Qabs (a - b)).
  unfold circular_diff, Py.min. cbv zeta.
  pose proof (Qabs_nonneg (a - b)) as Hpos.
  rewrite <- (abs_Qabs (a - b)) in Hpos.
  case_lt (360 - Py.abs (a - b)) (Py.abs (a - b)); split; intros H; lra.
Qed.

Lemma circular_diff_negative_iff_beyond_full_turn_witness :
  360 < Qabs (390 - 0) /\ circular_diff 390 0 < 0.
Proof.
  assert (H : 360 < Qabs (390 - 0)) by reflexivity.
  split; [exact H|].
  exact (proj2 (circular_diff_negative_iff_beyond_full_turn 390 0) H).
Defined.
